(** * supper: renaming, scraping and subtitle construction

    A shallow embedding of the rename orchestrator of package [app]
    ([Rename], the four renamers, [cleanString], [truncateSpaces],
    [scrapeMedia], [renameMovie], [renameEpisode], [RenameMedia]) and of
    the local subtitle of package [media] ([NewLocalSubtitle], [IsHI]).

    Go strings are byte strings: they are [string] here, and the functions
    that scan them work on [list ascii].  Functions that touch the file
    system, the log or a scraper thread an explicit world. *)

From Stdlib Require Import String Ascii List Bool Arith Lia.
From stdpp Require Import base option gmap strings.
Import ListNotations.

Local Open Scope char_scope.
Local Open Scope list_scope.

(* ===================================================================== *)
(** ** Byte-list helpers                                                 *)
(* ===================================================================== *)

(** Longest prefix whose bytes all satisfy [p]. *)
Fixpoint takeWhile (p : ascii -> bool) (s : list ascii) : list ascii :=
  match s with
  | c :: rest => if p c then c :: takeWhile p rest else []
  | [] => []
  end.

(** What is left once that prefix is removed. *)
Fixpoint dropWhile (p : ascii -> bool) (s : list ascii) : list ascii :=
  match s with
  | c :: rest => if p c then dropWhile p rest else s
  | [] => []
  end.

(** [isPrefix p s]: [s] starts with [p] ([strings.HasPrefix]). *)
Fixpoint isPrefix (p s : list ascii) : bool :=
  match p, s with
  | [], _ => true
  | a :: p', b :: s' => Ascii.eqb a b && isPrefix p' s'
  | _ :: _, [] => false
  end.

(** Does the list start with a byte of [p]? *)
Definition startsWith (p : ascii -> bool) (s : list ascii) : bool :=
  match s with
  | c :: _ => p c
  | [] => false
  end.

(** Are there two neighbours that both satisfy [p]? *)
Fixpoint adjacent (p : ascii -> bool) (s : list ascii) : bool :=
  match s with
  | c :: rest => (p c && startsWith p rest) || adjacent p rest
  | [] => false
  end.

(* ===================================================================== *)
(** ** Go's [regexp], restricted to what the package compiles            *)
(* ===================================================================== *)

Module Regexp.

(** A compiled pattern, seen through the one thing [ReplaceAllString]
    asks of it: the length of the leftmost-first match that starts at
    the head of the input, [0] when there is none there.  Neither
    pattern of this package matches the empty string. *)
Definition Regexp := list ascii -> nat.

(** The replacement loop.  [skip] counts the bytes of the current match
    that are still to be swallowed; outside a match every byte is
    copied, at a match the replacement is written once. *)
Fixpoint replaceAll (re : Regexp) (repl : list ascii) (skip : nat)
         (src : list ascii) : list ascii :=
  match src with
  | [] => []
  | c :: rest =>
      match skip with
      | S k => replaceAll re repl k rest
      | O =>
          match re src with
          | O => c :: replaceAll re repl 0 rest
          | S k => repl ++ replaceAll re repl k rest
          end
      end
  end.

Definition ReplaceAllString (re : Regexp) (src repl : string) : string :=
  string_of_list_ascii
    (replaceAll re (list_ascii_of_string repl) 0 (list_ascii_of_string src)).

(** A bracket expression [[...]]: one byte of the listed ones. *)
Definition class (members : list ascii) (c : ascii) : bool :=
  existsb (Ascii.eqb c) members.

Definition oneOf (members : list ascii) : Regexp :=
  fun s => match s with
           | c :: _ => if class members c then 1 else 0
           | [] => 0
           end.

(** Perl's [\s] in RE2 syntax: tab, newline, form feed, carriage
    return, space. *)
Definition perlSpace : ascii -> bool :=
  class ["009"; "010"; "012"; "013"; " "].

(** [p p+]: two bytes of [p], then as many more as there are. *)
Definition twoOrMore (p : ascii -> bool) : Regexp :=
  fun s => match s with
           | c1 :: c2 :: rest =>
               if p c1 && p c2
               then 2 + List.length (takeWhile p rest)
               else 0
           | _ => 0
           end.

End Regexp.

(* ===================================================================== *)
(** ** Package app: sanitising file names                                *)
(* ===================================================================== *)

(** The characters of [pathRegex]'s bracket expression, in its order:
    percent, slash, question mark, backslash, star, colon, bar, double
    quote (byte 34), less-than, greater-than, newline (10), carriage
    return (13). *)
Definition pathChars : list ascii :=
  ["%"; "/"; "?"; "\"; "*"; ":"; "|"; "034"; "<"; ">"; "010"; "013"].

Definition pathRegex : Regexp.Regexp := Regexp.oneOf pathChars.

Definition cleanString (str : string) : string :=
  Regexp.ReplaceAllString pathRegex str EmptyString.

Definition spaceRegex : Regexp.Regexp := Regexp.twoOrMore Regexp.perlSpace.

Definition truncateSpaces (str : string) : string :=
  Regexp.ReplaceAllString spaceRegex str (String " " EmptyString).

(** The replacement loop of [ReplaceAllString] for the pattern [p p+]
    and a replacement of the single byte [r]. *)
Definition collapse (p : ascii -> bool) (r : ascii) : list ascii -> list ascii :=
  Regexp.replaceAll (Regexp.twoOrMore p) [r] 0.

(* ===================================================================== *)
(** ** Go's [strings] and [path/filepath] (Unix)                         *)
(* ===================================================================== *)

Module Strings.

(** [strings.Split] for a non-empty separator: the pieces between the
    non-overlapping occurrences of [sep], leftmost first; [n]
    occurrences give [n + 1] pieces.  [cur] holds the current piece,
    last byte first; [skip] the bytes of the separator still to pass. *)
Fixpoint splitLoop (sep : list ascii) (skip : nat) (cur : list ascii)
         (s : list ascii) : list (list ascii) :=
  match s with
  | [] => [rev cur]
  | c :: rest =>
      match skip with
      | S k => splitLoop sep k cur rest
      | O =>
          if isPrefix sep s
          then rev cur :: splitLoop sep (List.length sep - 1) [] rest
          else splitLoop sep 0 (c :: cur) rest
      end
  end.

Definition Split (s sep : string) : list string :=
  map string_of_list_ascii
      (splitLoop (list_ascii_of_string sep) 0 [] (list_ascii_of_string s)).

(** [strings.Join]. *)
Fixpoint Join (elems : list string) (sep : string) : string :=
  match elems with
  | [] => EmptyString
  | [e] => e
  | e :: rest => String.append e (String.append sep (Join rest sep))
  end.

End Strings.

Module Filepath.

(** [os.IsPathSeparator] on Unix. *)
Definition IsPathSeparator (c : ascii) : bool := Ascii.eqb c "/".

(** The loop of [filepath.Ext], which walks the path from its last
    byte towards the first: [rpath] is the part not visited yet, last
    byte first, and [suffix] is [path[i+1:]]. *)
Fixpoint extLoop (rpath suffix : list ascii) : list ascii :=
  match rpath with
  | [] => []
  | c :: before =>
      if IsPathSeparator c then []
      else if Ascii.eqb c "." then c :: suffix
      else extLoop before (c :: suffix)
  end.

Definition Ext (path : string) : string :=
  string_of_list_ascii (extLoop (rev (list_ascii_of_string path)) []).

(** One step of [filepath.Clean] over the elements of a path; [stack]
    holds the elements kept so far, last one first. *)
Definition cleanStep (rooted : bool) (stack : list string) (elem : string)
  : list string :=
  if String.eqb elem EmptyString then stack
  else if String.eqb elem "." then stack
  else if String.eqb elem ".." then
    match stack with
    | top :: below =>
        if String.eqb top ".." then elem :: stack else below
    | [] => if rooted then [] else [elem]
    end
  else elem :: stack.

(** [filepath.Clean]: the shortest path equivalent to [path] by purely
    lexical processing. *)
Definition Clean (path : string) : string :=
  let rooted := match path with
                | String c _ => IsPathSeparator c
                | EmptyString => false
                end in
  let kept := fold_left (cleanStep rooted) (Strings.Split path "/") [] in
  let out := String.append (if rooted then "/" else EmptyString)
                           (Strings.Join (rev kept) "/") in
  if String.eqb out EmptyString then "."%string else out.

(** [filepath.Dir]: all but the last element of [path], cleaned. *)
Definition Dir (path : string) : string :=
  Clean (string_of_list_ascii
           (rev (dropWhile (fun c => negb (IsPathSeparator c))
                           (rev (list_ascii_of_string path))))).

(** [filepath.Join]: from the first non-empty element on, the
    elements joined with the separator and cleaned. *)
Fixpoint Join (elem : list string) : string :=
  match elem with
  | [] => EmptyString
  | e :: rest =>
      if String.eqb e EmptyString then Join rest
      else Clean (Strings.Join elem "/")
  end.

End Filepath.

(* ===================================================================== *)
(** ** Errors and the log                                                *)
(* ===================================================================== *)

(** A non-nil Go [error].  [option error] is an [error] that may be nil. *)
Inductive error : Type :=
| errorString (msg : string)          (* errors.New, fmt.Errorf *)
| mediaExistsError                    (* &mediaExistsError{} *)
| foreignError (pkg msg : string).    (* made by os, provider, template, ... *)

#[global] Instance error_eq_dec : EqDecision error.
Proof. solve_decision. Defined.

Definition errors_New (msg : string) : error := errorString msg.

Definition Error (e : error) : string :=
  match e with
  | errorString msg => msg
  | mediaExistsError => "media allready exists"
  | foreignError _ msg => msg
  end.

(** The type assertion of [err] to a pointer to [mediaExistsError]. *)
Definition isMediaExistsError (e : error) : bool :=
  match e with
  | mediaExistsError => true
  | _ => false
  end.

Definition isNil {A} (e : option A) : bool :=
  match e with
  | None => true
  | Some _ => false
  end.

(** Levels of apex/log, least severe first. *)
Inductive Level := DebugLevel | InfoLevel | WarnLevel | ErrorLevel | FatalLevel.

Definition severity (l : Level) : nat :=
  match l with
  | DebugLevel => 0
  | InfoLevel => 1
  | WarnLevel => 2
  | ErrorLevel => 3
  | FatalLevel => 4
  end.

(* ===================================================================== *)
(** ** What the package is given: file system and media                  *)
(* ===================================================================== *)

(** [os.FileInfo], as far as this code reads it. *)
Record FileInfo := {
  Name : string;
  ModTime : nat;
  IsDir : bool
}.

(** [os.FileMode], a 32-bit mask; [os.ModeDir] is its top bit. *)
Definition FileMode := N.
Definition ModeDir : FileMode := N.shiftl 1 31.

(** The file system behind packages [os] and [io].  Every call takes the
    state of the file system and, when it can change it, gives the next
    one; a handle is named by the path it was opened on. *)
Class OS := {
  FS : Type;
  os_Stat : string -> FS -> FileInfo + error;
  os_Remove : string -> FS -> option error * FS;
  os_MkdirAll : string -> FileMode -> FS -> option error * FS;
  os_Create : string -> FS -> option error * FS;
  io_Copy : string -> string -> FS -> option error * FS;
  os_Rename : string -> string -> FS -> option error * FS;
  os_Symlink : string -> string -> FS -> option error * FS;
  os_Link : string -> string -> FS -> option error * FS
}.

(** Release information of a medium (package media, [Metadata]); a tag
    of packages codec, quality and source is kept as its [String()]. *)
Record Metadata := {
  Group : string;
  Codec : string;
  Quality : string;
  Source : string;
  AllTags : list string
}.

(** What [types.Movie] and [types.Episode] answer. *)
Record Movie := {
  movieMeta : Metadata;
  MovieName : string;
  Year : Z
}.

Record Episode := {
  episodeMeta : Metadata;
  TVShow : string;
  EpisodeName : string;
  EpisodeNumber : Z;
  Season : Z
}.

(** Package types is an interface package: [Media] is what a scraper
    takes and gives, [LocalMedia] a medium of the list, which is a
    [Media] ([upcast]), an [os.FileInfo] ([Info]), can be opened, and
    may or may not implement [types.Pather] ([Path]).  [Merge] changes
    its receiver: it gives the error and the receiver afterwards. *)
Class Types `{OS} := {
  Media : Type;
  LocalMedia : Type;
  upcast : LocalMedia -> Media;
  Info : LocalMedia -> FileInfo;
  Open : LocalMedia -> FS -> string + error;
  Path : LocalMedia -> option string;
  Merge : LocalMedia -> Media -> option error * LocalMedia;
  TypeMovie : LocalMedia -> option Movie;
  TypeEpisode : LocalMedia -> option Episode
}.

(** Package provider: which errors mean "this scraper does not handle
    this kind of media". *)
Class Provider := {
  IsErrMediaNotSupported : error -> bool
}.

Section World.
Context `{Types}.

(** [types.Scraper]. *)
Record Scraper := {
  Scrape : Media -> Media + error
}.

(** A value attached to a log entry. *)
Inductive Value :=
| VString (s : string)
| VMedia (m : LocalMedia)
| VError (e : error).

Record Entry := {
  level : Level;
  fields : list (string * Value);
  message : string
}.

(** The calls that leave the package, in the order they are made. *)
Inductive Call :=
| CallStat (name : string)
| CallRemove (name : string)
| CallMkdirAll (path : string) (perm : FileMode)
| CallOpen (m : LocalMedia)
| CallCreate (name : string)
| CallCopy (dst : string)
| CallRename (oldpath newpath : string)
| CallSymlink (oldname newname : string)
| CallLink (oldname newname : string)
| CallScrape (s : Scraper) (m : Media).

(** The three calls that put the source at the destination by its
    path. *)
Definition isLink (c : Call) : bool :=
  match c with
  | CallRename _ _ | CallSymlink _ _ | CallLink _ _ => true
  | _ => false
  end.

(** The calls that can change the file system. *)
Definition isMutation (c : Call) : bool :=
  match c with
  | CallStat _ | CallOpen _ | CallScrape _ _ => false
  | _ => true
  end.

Record World := {
  fs : FS;
  logged : list Entry;
  calls : list Call
}.

(** Computations over the world. *)
Definition M (A : Type) : Type := World -> A * World.

Definition ret {A} (a : A) : M A := fun w => (a, w).

Definition bind {A B} (m : M A) (k : A -> M B) : M B :=
  fun w => let (a, w') := m w in k a w'.

#[global] Instance M_ret : MRet M := @ret.
#[global] Instance M_bind : MBind M := fun A B k m => bind m k.

Definition call (c : Call) : M unit :=
  fun w => (tt, {| fs := fs w; logged := logged w; calls := calls w ++ [c] |}).

(** A call that reads the file system. *)
Definition reading {A} (c : Call) (op : FS -> A) : M A :=
  fun w => (op (fs w),
            {| fs := fs w; logged := logged w; calls := calls w ++ [c] |}).

(** A call that may change the file system. *)
Definition writing (c : Call) (op : FS -> option error * FS)
  : M (option error) :=
  fun w => let (err, fs') := op (fs w) in
           (err, {| fs := fs'; logged := logged w; calls := calls w ++ [c] |}).

Definition Stat (name : string) : M (FileInfo + error) :=
  reading (CallStat name) (os_Stat name).
Definition Remove (name : string) : M (option error) :=
  writing (CallRemove name) (os_Remove name).
Definition MkdirAll (path : string) (perm : FileMode) : M (option error) :=
  writing (CallMkdirAll path perm) (os_MkdirAll path perm).
Definition openLocal (local : LocalMedia) : M (string + error) :=
  reading (CallOpen local) (Open local).
Definition Create (name : string) : M (option error) :=
  writing (CallCreate name) (os_Create name).
Definition Copy (dst src : string) : M (option error) :=
  writing (CallCopy dst) (io_Copy dst src).
Definition osRename (oldpath newpath : string) : M (option error) :=
  writing (CallRename oldpath newpath) (os_Rename oldpath newpath).
Definition Symlink (oldname newname : string) : M (option error) :=
  writing (CallSymlink oldname newname) (os_Symlink oldname newname).
Definition Link (oldname newname : string) : M (option error) :=
  writing (CallLink oldname newname) (os_Link oldname newname).

(** One entry handed to the log. *)
Definition log (l : Level) (fs_ : list (string * Value)) (msg : string)
  : M unit :=
  fun w => (tt, {| fs := fs w;
                   logged := logged w ++
                             [{| level := l; fields := fs_; message := msg |}];
                   calls := calls w |}).

(** [if err != nil { return err }] in front of the rest of a body. *)
Definition orReturn (err : option error) (rest : M (option error))
  : M (option error) :=
  match err with
  | Some e => ret (Some e)
  | None => rest
  end.

End World.

(* ===================================================================== *)
(** ** Package app: configuration                                        *)
(* ===================================================================== *)

(** The value handed to the movie template by [renameMovie]. *)
Module MovieData.
Record t := {
  Movie : string;
  Year : Z;
  Quality : string;
  Codec : string;
  Group : string
}.
End MovieData.

(** The value handed to the tv show template by [renameEpisode]. *)
Module EpisodeData.
Record t := {
  TVShow : string;
  Name : string;
  Episode : Z;
  Season : Z;
  Quality : string;
  Codec : string;
  Group : string
}.
End EpisodeData.

(** A parsed [text/template], seen through [Execute]: what it writes to
    the buffer, or the error it stops with. *)
Definition TemplateOf (D : Type) : Type := D -> string + error.

(** [Config().Movies()] and [Config().TVShows()]; a nil template is
    [None]. *)
Record MediaConfig (D : Type) := {
  Template : option (TemplateOf D);
  Directory : string
}.
Arguments Template {D} _.
Arguments Directory {D} _.

Record Configuration := {
  Strict : bool;
  Force : bool;
  Movies : MediaConfig MovieData.t;
  TVShows : MediaConfig EpisodeData.t
}.

(* ===================================================================== *)
(** ** Package app: renaming                                             *)
(* ===================================================================== *)

Section App.
Context `{Types} `{Provider}.

(** The application: its scrapers, its configuration, and the settings
    read through [viper.GetString]. *)
Record Application := {
  Scrapers : list Scraper;
  Config : Configuration;
  viper_GetString : string -> string
}.

Definition renamer : Type := LocalMedia -> string -> M (option error).

(** [Rename] is a wrapper function around a renamer which performs
    some sanity checks. *)
Definition Rename (r : renamer) (local : LocalMedia) (dest : string)
           (force : bool) : M (option error) :=
  st ← Stat dest;
  let err := match st with inl _ => None | inr e => Some e end in
  if negb force && isNil err then ret (Some mediaExistsError)
  else if isNil err then
    rmErr ← Remove dest;
    orReturn rmErr
      (log DebugLevel [("path"%string, VString dest)] "Removed existing media";;
       r local dest)
  else r local dest.

Definition copyRenamer : renamer := fun local dest =>
  err ← MkdirAll (Filepath.Dir dest) ModeDir;
  orReturn err
    (opened ← openLocal local;
     match opened with
     | inr err => ret (Some err)
     | inl file =>
         err ← Create dest;
         orReturn err
           (err ← Copy dest file;
            orReturn err
              (log DebugLevel [("path"%string, VString dest)] "Media copied";;
               ret None))
     end).

Definition moveRenamer : renamer := fun local dest =>
  err ← MkdirAll (Filepath.Dir dest) ModeDir;
  orReturn err
    match Path local with
    | None => ret (Some (errors_New "can't move media without a path"))
    | Some mpath =>
        err ← osRename mpath dest;
        orReturn err
          (log DebugLevel [("path"%string, VString dest)] "Media moved";;
           ret None)
    end.

Definition symlinkRenamer : renamer := fun local dest =>
  err ← MkdirAll (Filepath.Dir dest) ModeDir;
  orReturn err
    match Path local with
    | None => ret (Some (errors_New "can't symlink media without a path"))
    | Some mpath =>
        err ← Symlink mpath dest;
        orReturn err
          (log DebugLevel [("path"%string, VString dest)] "Media symlinked";;
           ret None)
    end.

Definition hardlinkRenamer : renamer := fun local dest =>
  err ← MkdirAll (Filepath.Dir dest) ModeDir;
  orReturn err
    match Path local with
    | None => ret (Some (errors_New "can't hardlink media without a path"))
    | Some mpath =>
        err ← Link mpath dest;
        orReturn err
          (log DebugLevel [("path"%string, VString dest)] "Media hardlinked";;
           ret None)
    end.

(** The world once [MkdirAll] has been called for the directory of
    [dest], and nothing else happened. *)
Definition afterMkdirAll (dest : string) (w : World) : World :=
  {| fs := snd (os_MkdirAll (Filepath.Dir dest) ModeDir (fs w));
     logged := logged w;
     calls := calls w ++ [CallMkdirAll (Filepath.Dir dest) ModeDir] |}.

(** [Renamers] holds the available renaming actions of the
    application. *)
Definition Renamers : gmap string renamer :=
  list_to_map [("copy"%string, copyRenamer);
               ("move"%string, moveRenamer);
               ("symlink"%string, symlinkRenamer);
               ("hardlink"%string, hardlinkRenamer)].

(** The loop of [scrapeMedia] over the scrapers still to try. *)
Fixpoint scrapeLoop (scrapers : list Scraper) (m : Media)
  : M (Media + error) :=
  match scrapers with
  | [] => ret (inr (errors_New "no scrapers to use for media"))
  | s :: later =>
      call (CallScrape s m);;
      match Scrape s m with
      | inr err =>
          if IsErrMediaNotSupported err then scrapeLoop later m
          else ret (inr err)
      | inl scraped => ret (inl scraped)
      end
  end.

Definition scrapeMedia (a : Application) (m : Media) : M (Media + error) :=
  scrapeLoop (Scrapers a) m.

(** The scraper answers [m] with an error that
    [IsErrMediaNotSupported] recognises. *)
Definition declines (m : Media) (s : Scraper) : Prop :=
  exists err, Scrape s m = inr err /\ IsErrMediaNotSupported err = true.

(** The world once the scrapers [ss] have been called on [m], in that
    order, and nothing else happened. *)
Definition afterScraping (m : Media) (ss : list Scraper) (w : World) : World :=
  {| fs := fs w; logged := logged w;
     calls := calls w ++ map (fun s => CallScrape s m) ss |}.

Definition renameMovie (a : Application) (local : LocalMedia) (m : Movie)
           (rename : renamer) : M (option error) :=
  match Template (Movies (Config a)) with
  | None => ret (Some (errors_New "missing template for movies"))
  | Some template =>
      let data := {|
        MovieData.Movie := cleanString (MovieName m);
        MovieData.Year := Year m;
        MovieData.Quality := Quality (movieMeta m);
        MovieData.Codec := Codec (movieMeta m);
        MovieData.Group := cleanString (Group (movieMeta m))
      |} in
      match template data with
      | inr err => ret (Some err)
      | inl buf =>
          let filename :=
            truncateSpaces (String.append buf (Filepath.Ext (Name (Info local)))) in
          let dest := Filepath.Join [Directory (Movies (Config a)); filename] in
          Rename rename local dest (Force (Config a))
      end
  end.

Definition renameEpisode (a : Application) (local : LocalMedia) (e : Episode)
           (rename : renamer) : M (option error) :=
  match Template (TVShows (Config a)) with
  | None => ret (Some (errors_New "missing template for tvshows"))
  | Some template =>
      let data := {|
        EpisodeData.TVShow := cleanString (TVShow e);
        EpisodeData.Name := cleanString (EpisodeName e);
        EpisodeData.Episode := EpisodeNumber e;
        EpisodeData.Season := Season e;
        EpisodeData.Quality := Quality (episodeMeta e);
        EpisodeData.Codec := Codec (episodeMeta e);
        EpisodeData.Group := cleanString (Group (episodeMeta e))
      |} in
      match template data with
      | inr err => ret (Some err)
      | inl buf =>
          let filename :=
            truncateSpaces (String.append buf (Filepath.Ext (Name (Info local)))) in
          let dest := Filepath.Join [Directory (TVShows (Config a)); filename] in
          Rename rename local dest (Force (Config a))
      end
  end.

(** The [if movie / else if episode / else] of the loop body of
    [RenameMedia]: the error of renaming one merged medium. *)
Definition renameByType (a : Application) (m : LocalMedia)
           (doRename : renamer) : M (option error) :=
  match TypeMovie m with
  | Some movie => renameMovie a m movie doRename
  | None =>
      match TypeEpisode m with
      | Some episode => renameEpisode a m episode doRename
      | None => ret (Some (errors_New "unknown media format cannot rename"))
      end
  end.

(** The fields of [ctx]; the medium is logged as it is when the entry
    is written, that is after [Merge]. *)
Definition ctxFields (a : Application) (m : LocalMedia)
  : list (string * Value) :=
  [("media"%string, VMedia m);
   ("action"%string, VString (viper_GetString a "action"))].

(** What the loop body logs once the rename has been tried. *)
Definition report (a : Application) (m : LocalMedia) (err : option error)
  : M unit :=
  match err with
  | Some e =>
      if isMediaExistsError e
      then log WarnLevel
               (ctxFields a m ++
                [("reason"%string, VString "media already exists")])
               "Rename skipped"
      else log ErrorLevel (ctxFields a m ++ [("error"%string, VError e)])
               "Rename failed"
  | None => log InfoLevel (ctxFields a m) "Media renamed"
  end.

(** The world once the skip of [m] has been logged on top of [w]. *)
Definition skipped (a : Application) (m : LocalMedia) (w : World) : World :=
  {| fs := fs w;
     logged := logged w ++
               [{| level := WarnLevel;
                   fields := ctxFields a m ++
                             [("reason"%string, VString "media already exists")];
                   message := "Rename skipped" |}];
     calls := calls w |}.

(** The [for] loop of [RenameMedia] over the media still to rename. *)
Fixpoint renameLoop (a : Application) (doRename : renamer)
         (list : list LocalMedia) : M (option error) :=
  match list with
  | [] => ret None
  | m :: later =>
      scrapeResult ← scrapeMedia a (upcast m);
      match scrapeResult with
      | inr err => ret (Some err)
      | inl scraped =>
          let (mergeErr, m') := Merge m scraped in
          orReturn mergeErr
            (err ← renameByType a m' doRename;
             if Strict (Config a) && negb (isNil err) then ret err
             else report a m' err;; renameLoop a doRename later)
      end
  end.

(** [RenameMedia] traverses the local media list and renames the
    media. *)
Definition RenameMedia (a : Application) (list : list LocalMedia)
  : M (option error) :=
  match Renamers !! viper_GetString a "action" with
  | None =>
      ret (Some (errorString
                   (String.append (viper_GetString a "action")
                                  ": unknown action")))
  | Some doRename => renameLoop a doRename list
  end.

End App.

(* ===================================================================== *)
(** ** Package media: local subtitles                                    *)
(* ===================================================================== *)

(** golang.org/x/text/language: the tags and their parser, which gives
    a tag together with an error that is nil when the text is a
    well-formed, known locale. *)
Class LanguageTags := {
  Tag : Type;
  language_Parse : string -> Tag * option error
}.

(** [language.Make] is [Parse] with the error dropped. *)
Definition language_Make `{LanguageTags} (s : string) : Tag :=
  fst (language_Parse s).

Module media.
Section Subtitle.
Context `{LanguageTags}.

Record LocalSubtitle := {
  file : FileInfo;
  lang : Tag
}.

(** The element [parts[len(parts)-2]]; the guard in front of its only
    use keeps the index in range. *)
Definition secondToLast (parts : list string) : string :=
  nth (List.length parts - 2) parts EmptyString.

Definition NewLocalSubtitle (file : FileInfo) : LocalSubtitle + error :=
  if negb (String.eqb (Filepath.Ext (Name file)) ".srt") then
    inr (errors_New "parsing non subtitle file as subtitle")
  else
    let parts := Strings.Split (Name file) "." in
    if Nat.ltb (List.length parts) 2 then
      inr (errors_New "error parsing subtitle file")
    else
      let tag := language_Make (secondToLast parts) in
      inl {| file := file; lang := tag |}.

Definition IsHI (l : LocalSubtitle) : bool := false.

Definition Download (l : LocalSubtitle) : string + error :=
  inr (errors_New "local subtitle can't be downloaded").

Definition Language (l : LocalSubtitle) : Tag := lang l.

(** Merge is not supported for subtitles. *)
Definition Merge {other : Type} (l : LocalSubtitle) (o : other)
  : option error :=
  Some (errors_New "merging of subtitles is not supported").

Definition TypeMovie (l : LocalSubtitle) : option Movie := None.

Definition TypeEpisode (l : LocalSubtitle) : option Episode := None.

End Subtitle.
End media.

(* ===================================================================== *)
(** ** A file system, media and scrapers to run the package on           *)
(* ===================================================================== *)

(** An in-memory Unix-like file system: a table from paths to nodes and
    a clock that stamps every write.  Paths are looked up as they are
    written; the root and the current directory always exist.
    Permissions are not kept: [os_MkdirAll] ignores its mode. *)
Module Mem.

Inductive Node :=
| Directory
| File (content : string) (mtime : nat)
| SymbolicLink (target : string).

Record State := {
  nodes : gmap string Node;
  clock : nat
}.

Definition ENOENT : error := foreignError "os" "no such file or directory".
Definition ENOTDIR : error := foreignError "os" "not a directory".
Definition EEXIST : error := foreignError "os" "file exists".
Definition EISDIR : error := foreignError "os" "is a directory".
Definition ENOTEMPTY : error := foreignError "os" "directory not empty".
Definition EBADF : error := foreignError "os" "bad file descriptor".
Definition EPERM : error := foreignError "os" "operation not permitted".

(** The last element of a path. *)
Definition base (path : string) : string :=
  string_of_list_ascii
    (rev (takeWhile (fun c => negb (Filepath.IsPathSeparator c))
                    (rev (list_ascii_of_string path)))).

Definition isDirectory (s : State) (path : string) : bool :=
  if String.eqb path "/" then true
  else if String.eqb path "." then true
  else match nodes s !! path with
       | Some Directory => true
       | _ => false
       end.

Definition infoOf (path : string) (n : Node) : FileInfo :=
  match n with
  | Directory => {| Name := base path; ModTime := 0; IsDir := true |}
  | File _ t => {| Name := base path; ModTime := t; IsDir := false |}
  | SymbolicLink _ => {| Name := base path; ModTime := 0; IsDir := false |}
  end.

(** [stat] follows one symbolic link. *)
Definition Stat (name : string) (s : State) : FileInfo + error :=
  match nodes s !! name with
  | Some (SymbolicLink target) =>
      match nodes s !! target with
      | Some n => inl (infoOf name n)
      | None => inr ENOENT
      end
  | Some n => inl (infoOf name n)
  | None => if isDirectory s name then inl (infoOf name Directory)
            else inr ENOENT
  end.

Definition hasEntries (s : State) (dir : string) : bool :=
  existsb (fun kv => isPrefix (list_ascii_of_string (String.append dir "/"))
                              (list_ascii_of_string (fst kv)))
          (map_to_list (nodes s)).

Definition Remove (name : string) (s : State) : option error * State :=
  match nodes s !! name with
  | None => (Some ENOENT, s)
  | Some Directory =>
      if hasEntries s name then (Some ENOTEMPTY, s)
      else (None, {| nodes := delete name (nodes s); clock := clock s |})
  | Some _ => (None, {| nodes := delete name (nodes s); clock := clock s |})
  end.

(** The directories [MkdirAll] walks through, outermost first. *)
Fixpoint chain (prefix : string) (elems : list string) : list string :=
  match elems with
  | [] => []
  | e :: rest =>
      if String.eqb e EmptyString || String.eqb e "." then chain prefix rest
      else
        let here := if String.eqb prefix EmptyString then e
                    else if String.eqb prefix "/" then String.append "/" e
                    else String.append prefix (String.append "/" e) in
        here :: chain here rest
  end.

Definition ancestors (path : string) : list string :=
  chain (match path with
         | String "/" _ => "/"%string
         | _ => EmptyString
         end)
        (Strings.Split path "/").

Fixpoint mkdirs (dirs : list string) (s : State) : option error * State :=
  match dirs with
  | [] => (None, s)
  | d :: rest =>
      match nodes s !! d with
      | Some Directory => mkdirs rest s
      | Some _ => (Some ENOTDIR, s)
      | None => mkdirs rest {| nodes := <[d := Directory]> (nodes s);
                               clock := clock s |}
      end
  end.

Definition MkdirAll (path : string) (perm : FileMode) (s : State)
  : option error * State :=
  mkdirs (ancestors path) s.

(** [os.Create]: the file is made, or emptied when it is there. *)
Definition Create (name : string) (s : State) : option error * State :=
  if negb (isDirectory s (Filepath.Dir name)) then (Some ENOENT, s)
  else match nodes s !! name with
       | Some Directory => (Some EISDIR, s)
       | _ => (None, {| nodes := <[name := File EmptyString (clock s)]> (nodes s);
                        clock := S (clock s) |})
       end.

(** [io.Copy] of a whole source into the file opened on [dst]. *)
Definition Copy (dst src : string) (s : State) : option error * State :=
  match nodes s !! dst with
  | Some (File _ _) =>
      (None, {| nodes := <[dst := File src (clock s)]> (nodes s);
                clock := S (clock s) |})
  | _ => (Some EBADF, s)
  end.

Definition Rename (oldpath newpath : string) (s : State)
  : option error * State :=
  match nodes s !! oldpath with
  | None => (Some ENOENT, s)
  | Some n =>
      if negb (isDirectory s (Filepath.Dir newpath)) then (Some ENOENT, s)
      else (None, {| nodes := <[newpath := n]> (delete oldpath (nodes s));
                     clock := clock s |})
  end.

Definition Symlink (oldname newname : string) (s : State)
  : option error * State :=
  match nodes s !! newname with
  | Some _ => (Some EEXIST, s)
  | None =>
      if negb (isDirectory s (Filepath.Dir newname)) then (Some ENOENT, s)
      else (None, {| nodes := <[newname := SymbolicLink oldname]> (nodes s);
                     clock := clock s |})
  end.

Definition Link (oldname newname : string) (s : State)
  : option error * State :=
  match nodes s !! oldname, nodes s !! newname with
  | None, _ => (Some ENOENT, s)
  | Some _, Some _ => (Some EEXIST, s)
  | Some (File c t), None =>
      if negb (isDirectory s (Filepath.Dir newname)) then (Some ENOENT, s)
      else (None, {| nodes := <[newname := File c t]> (nodes s);
                     clock := clock s |})
  | Some _, None => (Some EPERM, s)
  end.

Definition os : OS := {|
  FS := State;
  os_Stat := Stat;
  os_Remove := Remove;
  os_MkdirAll := MkdirAll;
  os_Create := Create;
  io_Copy := Copy;
  os_Rename := Rename;
  os_Symlink := Symlink;
  os_Link := Link
|}.

Definition ErrMediaNotSupported : error :=
  foreignError "provider" "media not supported".

Definition provider : Provider := {|
  IsErrMediaNotSupported := fun e => bool_decide (e = ErrMediaNotSupported)
|}.

(** A small parser of language tags: two or three ASCII letters are a
    language, anything else is a syntax error and gives the
    undetermined tag. *)
Definition isLetter (c : ascii) : bool :=
  let n := nat_of_ascii c in
  (Nat.leb 65 n && Nat.leb n 90) || (Nat.leb 97 n && Nat.leb n 122).

Definition parse (s : string) : option string * option error :=
  let cs := list_ascii_of_string s in
  if forallb isLetter cs && Nat.leb 2 (List.length cs)
     && Nat.leb (List.length cs) 3
  then (Some s, None)
  else (None, Some (foreignError "language" "tag is not well-formed")).

Definition tags : LanguageTags := {|
  Tag := option string;
  language_Parse := parse
|}.

(** What a medium is: a movie, an episode, or a subtitle. *)
Inductive Kind :=
| KMovie (m : Movie)
| KEpisode (e : Episode)
| KSubtitle (s : @media.LocalSubtitle tags).

(** A local medium: with a path it is the file there, without one it
    is a stream held in memory. *)
Record Local := {
  info : FileInfo;
  path : option string;
  stream : string;
  kind : Kind
}.

Definition open (l : Local) (s : State) : string + error :=
  match path l with
  | None => inl (stream l)
  | Some p =>
      match nodes s !! p with
      | Some (File c _) => inl c
      | _ => inr ENOENT
      end
  end.

(** Modelled from the spec: the [Merge] of movies and episodes, whose
    types are not in the sources.  The merged medium takes title, year,
    show, season and episode from the scraped one and keeps its own
    release metadata; different kinds do not merge.  A subtitle answers
    with its own [media.Merge]. *)
Definition merge (l : Local) (scraped : Kind) : option error * Local :=
  match kind l, scraped with
  | KMovie m, KMovie r =>
      (None, {| info := info l; path := path l; stream := stream l;
                kind := KMovie {| movieMeta := movieMeta m;
                                  MovieName := MovieName r;
                                  Year := Year r |} |})
  | KEpisode e, KEpisode r =>
      (None, {| info := info l; path := path l; stream := stream l;
                kind := KEpisode {| episodeMeta := episodeMeta e;
                                    TVShow := TVShow r;
                                    EpisodeName := EpisodeName r;
                                    EpisodeNumber := EpisodeNumber r;
                                    Season := Season r |} |})
  | KSubtitle sub, _ => (media.Merge sub scraped, l)
  | _, _ => (Some (foreignError "media" "type mismatch"), l)
  end.

Definition typeMovie (l : Local) : option Movie :=
  match kind l with
  | KMovie m => Some m
  | KEpisode _ => None
  | KSubtitle sub => media.TypeMovie sub
  end.

Definition typeEpisode (l : Local) : option Episode :=
  match kind l with
  | KEpisode e => Some e
  | KMovie _ => None
  | KSubtitle sub => media.TypeEpisode sub
  end.

Definition types : @Types os :=
  @Build_Types os Kind Local kind info open path merge typeMovie typeEpisode.

End Mem.

(** A small library to run the package on: two movies and a subtitle on
    disk, a stream without a path, and a few scrapers. *)
Module Library.
#[local] Existing Instances Mem.os Mem.types Mem.provider Mem.tags.

Definition release : Metadata := {|
  Group := "GRP"; Codec := "x264"; Quality := "1080p"; Source := "BluRay";
  AllTags := ["1080p"; "BluRay"; "x264"]%string
|}.

Definition noRelease : Metadata := {|
  Group := ""; Codec := ""; Quality := ""; Source := ""; AllTags := []
|}.

Definition heat : LocalMedia := {|
  Mem.info := {| Name := "Heat.1995.1080p.BluRay.x264-GRP.mkv";
                 ModTime := 1; IsDir := false |};
  Mem.path := Some "/in/Heat.1995.1080p.BluRay.x264-GRP.mkv"%string;
  Mem.stream := "";
  Mem.kind := Mem.KMovie {| movieMeta := release; MovieName := "heat"; Year := 0 |}
|}.

Definition alien : LocalMedia := {|
  Mem.info := {| Name := "Alien.1979.1080p.BluRay.x264-GRP.mkv";
                 ModTime := 2; IsDir := false |};
  Mem.path := Some "/in/Alien.1979.1080p.BluRay.x264-GRP.mkv"%string;
  Mem.stream := "";
  Mem.kind := Mem.KMovie {| movieMeta := release; MovieName := "alien"; Year := 0 |}
|}.

Definition subtitle : LocalMedia := {|
  Mem.info := {| Name := "Heat.1995.en.srt"; ModTime := 3; IsDir := false |};
  Mem.path := Some "/in/Heat.1995.en.srt"%string;
  Mem.stream := "";
  Mem.kind := Mem.KSubtitle
                {| media.file := {| Name := "Heat.1995.en.srt"; ModTime := 3;
                                    IsDir := false |};
                   media.lang := Some "en"%string |}
|}.

(** An episode; the library has no template for tv shows. *)
Definition pilot : LocalMedia := {|
  Mem.info := {| Name := "Show.S01E01.mkv"; ModTime := 3; IsDir := false |};
  Mem.path := Some "/in/Show.S01E01.mkv"%string;
  Mem.stream := "";
  Mem.kind := Mem.KEpisode {| episodeMeta := release; TVShow := "show";
                              EpisodeName := ""; EpisodeNumber := 1;
                              Season := 1 |}
|}.

(** A movie that comes from a stream: it has no path. *)
Definition streamed : LocalMedia := {|
  Mem.info := {| Name := "Stream.mkv"; ModTime := 0; IsDir := false |};
  Mem.path := None;
  Mem.stream := "bytes of the stream";
  Mem.kind := Mem.KMovie {| movieMeta := release; MovieName := "stream"; Year := 0 |}
|}.

(** Knows two movies by their lower-case names, declines everything
    that is not a movie. *)
Definition movieDb : Scraper := {|
  Scrape := fun m =>
    match m with
    | Mem.KMovie mv =>
        if String.eqb (MovieName mv) "heat" then
          inl (Mem.KMovie {| movieMeta := noRelease;
                             MovieName := "Heat"; Year := 1995 |})
        else if String.eqb (MovieName mv) "alien" then
          inl (Mem.KMovie {| movieMeta := noRelease;
                             MovieName := "Alien"; Year := 1979 |})
        else inr (foreignError "provider" "movie not found")
    | _ => inr Mem.ErrMediaNotSupported
    end
|}.

(** Handles episodes only. *)
Definition tvDb : Scraper := {|
  Scrape := fun m =>
    match m with
    | Mem.KEpisode e => inl (Mem.KEpisode e)
    | _ => inr Mem.ErrMediaNotSupported
    end
|}.

(** Cannot reach its source. *)
Definition offline : Scraper := {|
  Scrape := fun _ => inr (foreignError "provider" "lookup failed")
|}.

(** Takes everything for the movie Heat. *)
Definition eager : Scraper := {|
  Scrape := fun _ =>
    inl (Mem.KMovie {| movieMeta := noRelease; MovieName := "Heat"; Year := 1995 |})
|}.

(** The movie template that writes the title only. *)
Definition titleOnly : TemplateOf MovieData.t :=
  fun data => inl (MovieData.Movie data).

Definition lenient : Configuration := {|
  Strict := false;
  Force := false;
  Movies := {| Template := Some titleOnly; Directory := "/movies" |};
  TVShows := {| Template := None; Directory := "/tv" |}
|}.

Definition strict : Configuration := {|
  Strict := true;
  Force := false;
  Movies := {| Template := Some titleOnly; Directory := "/movies" |};
  TVShows := {| Template := None; Directory := "/tv" |}
|}.

(** The application with the action set to copy. *)
Definition app (config : Configuration) (scrapers : list Scraper)
  : Application := {|
  Scrapers := scrapers;
  Config := config;
  viper_GetString := fun key =>
    if String.eqb key "action" then "copy"%string else EmptyString
|}.

(** A disk on which Heat has been renamed before. *)
Definition disk : FS := {|
  Mem.nodes := list_to_map
    [("/in"%string, Mem.Directory);
     ("/in/Heat.1995.1080p.BluRay.x264-GRP.mkv"%string, Mem.File "heat bytes" 1);
     ("/in/Alien.1979.1080p.BluRay.x264-GRP.mkv"%string, Mem.File "alien bytes" 2);
     ("/in/Heat.1995.en.srt"%string, Mem.File "subtitle bytes" 3);
     ("/movies"%string, Mem.Directory);
     ("/movies/Heat.mkv"%string, Mem.File "older copy" 4)];
  Mem.clock := 5
|}.

(** A disk on which the name of the movie directory is taken by a
    regular file. *)
Definition blocked : FS := {|
  Mem.nodes := list_to_map [("/movies"%string, Mem.File "not a directory" 1)];
  Mem.clock := 2
|}.

Definition start (disk : FS) : World :=
  {| fs := disk; logged := []; calls := [] |}.

End Library.

(* ===================================================================== *)
(** ** Worlds reached by the renamers                                    *)
(* ===================================================================== *)

Section Reached.
Context `{Types}.

(** The world once the call [c] has been recorded on top of [w]. *)
Definition called (c : Call) (w : World) : World :=
  {| fs := fs w; logged := logged w; calls := calls w ++ [c] |}.

(** What a renamer logs when it has put the medium at [dest]. *)
Definition logsSuccess (dest : string) (w w' : World) : Prop :=
  exists msg,
    logged w' = logged w ++
                [{| level := DebugLevel;
                    fields := [("path"%string, VString dest)];
                    message := msg |}].

End Reached.

(* ===================================================================== *)
(** ** Package media: metadata                                           *)
(* ===================================================================== *)

(** [Metadata.String] returns a description of the metadata. *)
Definition Metadata_String (m : Metadata) : string :=
  Strings.Join [Group m; Codec m; Quality m; Source m] ",".

(* ===================================================================== *)
(** ** Package application: finding media                                *)
(* ===================================================================== *)

(** A call either returns or panics. *)
Inductive Outcome (A : Type) : Type :=
| Returns (a : A)
| Panics.
Arguments Returns {A} a.
Arguments Panics {A}.

(** One call of [filepath.Walk] to its function: the path, the file
    information, which is nil when the file could not be examined, and
    the error of examining it. *)
Record Visit := {
  visitPath : string;
  visitInfo : option FileInfo;
  visitErr : option error
}.

(** What [FindMedia] is given besides the file system: [os.IsNotExist],
    the calls [filepath.Walk] makes to a function that keeps answering
    nil, in their order, and the constructor [media.New]. *)
Class Scanner `{Types} := {
  os_IsNotExist : error -> bool;
  filepath_Walk : string -> FS -> list Visit;
  media_New : FileInfo -> LocalMedia + error
}.

Module application.

Definition filetypes : list string :=
  [".avi"; ".mkv"; ".mp4"; ".m4v"; ".flv"; ".mov"; ".wmv"; ".webm"; ".mpg";
   ".mpeg"]%string.

(** [path.Ext]: as [filepath.Ext] with the slash as the separator. *)
Definition path_Ext (path : string) : string := Filepath.Ext path.

Section FindMedia.
Context `{Scanner}.

(** The [for] loop over [filetypes] in the function handed to
    [filepath.Walk]: the error it returns and the media list after it. *)
Fixpoint rangeFiletypes (exts : list string) (filepath : string) (f : FileInfo)
         (medialist : list LocalMedia) : option error * list LocalMedia :=
  match exts with
  | [] => (None, medialist)
  | ext :: rest =>
      if String.eqb ext (path_Ext filepath) then
        match media_New f with
        | inr _ =>
            (Some (errorString (String.append "Cound not parse file: " filepath)),
             medialist)
        | inl _media => (None, medialist ++ [_media])
        end
      else rangeFiletypes rest filepath f medialist
  end.

(** The function handed to [filepath.Walk].  It calls [IsDir] on the
    file information without looking at the error it is given. *)
Definition walkFn (filepath : string) (f : option FileInfo) (err : option error)
           (medialist : list LocalMedia)
  : Outcome (option error * list LocalMedia) :=
  match f with
  | None => Panics
  | Some info =>
      if IsDir info then Returns (None, medialist)
      else Returns (rangeFiletypes filetypes filepath info medialist)
  end.

(** [filepath.Walk] over the calls it has to make: it stops at the
    first error its function returns, and returns it. *)
Fixpoint walk (visits : list Visit) (medialist : list LocalMedia)
  : Outcome (option error * list LocalMedia) :=
  match visits with
  | [] => Returns (None, medialist)
  | v :: rest =>
      match walkFn (visitPath v) (visitInfo v) (visitErr v) medialist with
      | Panics => Panics
      | Returns (Some err, medialist') => Returns (Some err, medialist')
      | Returns (None, medialist') => walk rest medialist'
      end
  end.

(** The call of [filepath.Walk] in [FindMedia] and what follows it. *)
Definition walkRoot (root : string) (fs : FS)
  : Outcome (list LocalMedia + error) :=
  match walk (filepath_Walk root fs) [] with
  | Panics => Panics
  | Returns (Some err, _) => Returns (inr err)
  | Returns (None, medialist) => Returns (inl medialist)
  end.

(** [FindMedia] searches for media files. *)
Definition FindMedia (root : string) (fs : FS)
  : Outcome (list LocalMedia + error) :=
  match os_Stat root fs with
  | inr err => if os_IsNotExist err then Returns (inr err) else walkRoot root fs
  | inl _ => walkRoot root fs
  end.

(** The visit is one of a regular file with one of the [filetypes]. *)
Definition isMediaFile (v : Visit) : bool :=
  match visitInfo v with
  | Some info =>
      negb (IsDir info) &&
      existsb (fun ext => String.eqb ext (path_Ext (visitPath v))) filetypes
  | None => false
  end.

(** The media [media.New] makes of the media files among the visits. *)
Fixpoint mediaOf (visits : list Visit) : list LocalMedia :=
  match visits with
  | [] => []
  | v :: rest =>
      match visitInfo v with
      | Some info =>
          if isMediaFile v then
            match media_New info with
            | inl m => m :: mediaOf rest
            | inr _ => mediaOf rest
            end
          else mediaOf rest
      | None => mediaOf rest
      end
  end.

(** The visit has file information and, when it is one of a media
    file, [media.New] accepts the file. *)
Definition parses (v : Visit) : Prop :=
  exists info, visitInfo v = Some info /\
    (isMediaFile v = true -> exists m, media_New info = inl m).

End FindMedia.
End application.

(* ===================================================================== *)
(** ** Package api                                                       *)
(* ===================================================================== *)

(** What package api takes from other packages: the comparison of
    language tags, [language.Und], the English name of a language, and
    the JSON of the one-field object that carries an error message. *)
Class Web `{LanguageTags} := {
  Tag_eq :: EqDecision Tag;
  language_Und : Tag;
  display_Name : Tag -> string;
  json_errorObject : string -> string + error
}.

(** [err.Error()] of an error of another package, for package api where
    [Error] is the constructor of API errors. *)
Definition errorText (e : error) : string := Error e.

Module api.

(** The errors a handler can answer with: an error of another package,
    or a pointer to an [apiError], which embeds an error and so is an
    error itself. *)
Inductive goerror : Type :=
| plain (e : error)
| apiError (err : goerror) (Code : Z).

(** The [Error()] of an error; the one of an [apiError] is the one of
    the error it embeds. *)
Fixpoint message (e : goerror) : string :=
  match e with
  | plain e' => errorText e'
  | apiError err _ => message err
  end.

(** The assertion to [APIError], and [Status]. *)
Definition Status (e : goerror) : option Z :=
  match e with
  | plain _ => None
  | apiError _ Code => Some Code
  end.

Definition Error (err : goerror) (status : Z) : goerror := apiError err status.

Definition StatusBadRequest : Z := 400.
Definition StatusNotFound : Z := 404.
Definition StatusMethodNotAllowed : Z := 405.

(** What is done to the [http.ResponseWriter], in order. *)
Inductive WriterCall :=
| HeaderSet (key value : string)
| WriteHeader (statusCode : Z)
| Write (body : string)
| http_Error (error : string) (code : Z).

(** [http.Request], as far as the handlers read it: the method and
    [URL.Query().Get]. *)
Record Request := {
  Method : string;
  QueryGet : string -> string
}.

(** The [interface{}] a handler returns: nil, an error, or a value of
    type [P] that is no error. *)
Inductive Reply (P : Type) : Type :=
| replyNil
| replyError (e : goerror)
| replyValue (p : P).
Arguments replyNil {P}.
Arguments replyError {P} e.
Arguments replyValue {P} p.

(** A handler: what it does to the writer itself, and what it returns. *)
Definition apiHandler (P : Type) : Type := Request -> list WriterCall * Reply P.

Section Api.
Context `{Web}.

(** [apiError.MarshalJSON] under [json.MarshalIndent]. *)
Definition MarshalJSON (e : goerror) : string + error :=
  json_errorObject (message e).

(** [apiHandler.ServeHTTP].  An error is wrapped before it is written,
    so what is asserted to [APIError] afterwards is the wrapper; a value
    that is no error is no [APIError] either. *)
Definition ServeHTTP {P : Type} (json_MarshalIndent : P -> string + error)
           (fn : apiHandler P) (r : Request) : list WriterCall :=
  let (written, e) := fn r in
  match e with
  | replyNil => written ++ [http_Error "Not found" StatusNotFound]
  | replyError err =>
      let e' := Error err StatusBadRequest in
      match MarshalJSON e' with
      | inr err' => written ++ [http_Error (errorText err') 500]
      | inl js =>
          written ++
          [HeaderSet "Content-Type" "application/json"] ++
          match Status e' with
          | Some code => [WriteHeader code]
          | None => []
          end ++
          [Write js]
      end
  | replyValue p =>
      match json_MarshalIndent p with
      | inr err' => written ++ [http_Error (errorText err') 500]
      | inl js =>
          written ++ [HeaderSet "Content-Type" "application/json"] ++ [Write js]
      end
  end.

(** An element of the set of configured languages: a language tag, or
    something else. *)
Inductive Item :=
| itemTag (t : Tag)
| itemOther.

(** The application behind the API, as far as these handlers use it:
    [Config().Languages().List()]. *)
Record API := {
  Languages : list Item
}.

Record jsonLang := {
  Code : Tag;
  Lang : string
}.

Record jsonConfig := {
  Langs : list jsonLang
}.

(** The loop of [config] over the configured languages. *)
Fixpoint rangeLanguages (items : list Item) (langs : list jsonLang)
  : list jsonLang :=
  match items with
  | [] => langs
  | itemTag tag :: rest =>
      rangeLanguages rest (langs ++ [{| Code := tag; Lang := display_Name tag |}])
  | itemOther :: rest => rangeLanguages rest langs
  end.

Definition config (a : API) : apiHandler jsonConfig := fun r =>
  if String.eqb (Method r) "GET" then
    ([], replyValue {| Langs := rangeLanguages (Languages a) [] |})
  else
    let err := plain (errors_New "Method not allowed") in
    ([], replyError (Error err StatusMethodNotAllowed)).

(** [queryLang]: the set is given by its elements. *)
Definition queryLang (a : API) (r : Request) : list Item * option error :=
  let lang := QueryGet r "lang" in
  if String.eqb lang "" then (Languages a, None)
  else
    let l := language_Make lang in
    if decide (l = language_Und)
    then ([], Some (errors_New "unknown language"))
    else ([itemTag l], None).

(** The tags among the items, in their order. *)
Fixpoint tagsOf (items : list Item) : list Tag :=
  match items with
  | [] => []
  | itemTag t :: rest => t :: tagsOf rest
  | itemOther :: rest => tagsOf rest
  end.

(** The status a sequence of writer calls sends, when it sets one. *)
Definition statusOf (c : WriterCall) : option Z :=
  match c with
  | WriteHeader code => Some code
  | http_Error _ code => Some code
  | _ => None
  end.

End Api.
End api.

(* ===================================================================== *)
(** ** A walk, a parser of media names and a web setting to run on       *)
(* ===================================================================== *)

Module Samples.
#[local] Existing Instances Mem.os Mem.types Mem.provider Mem.tags.

(** Insertion of a path into a list of paths in ascending order. *)
Fixpoint insertPath (p : string * Mem.Node) (l : list (string * Mem.Node))
  : list (string * Mem.Node) :=
  match l with
  | [] => [p]
  | q :: rest =>
      if String.leb (fst p) (fst q) then p :: l else q :: insertPath p rest
  end.

Definition sortPaths (l : list (string * Mem.Node)) : list (string * Mem.Node) :=
  fold_right insertPath [] l.

(** The walk of the in-memory file system: the root, then what is below
    it in ascending order of the paths, which is the order of
    [filepath.Walk] as long as no name has a byte below the slash.  A
    root that is not there is reported without file information. *)
Definition walkOf (root : string) (s : Mem.State) : list Visit :=
  match Mem.nodes s !! root with
  | None => [{| visitPath := root; visitInfo := None;
                visitErr := Some Mem.ENOENT |}]
  | Some n =>
      {| visitPath := root; visitInfo := Some (Mem.infoOf root n);
         visitErr := None |} ::
      map (fun kv => {| visitPath := fst kv;
                        visitInfo := Some (Mem.infoOf (fst kv) (snd kv));
                        visitErr := None |})
          (sortPaths
             (List.filter
                (fun kv => isPrefix (list_ascii_of_string (String.append root "/"))
                                    (list_ascii_of_string (fst kv)))
                (map_to_list (Mem.nodes s))))
  end.

(** A parser of media names: the part of the name before its first dot
    is the title of a movie; a name that starts with a dot is refused.
    The medium has the file information only, so no path. *)
Definition newMedia (f : FileInfo) : LocalMedia + error :=
  match Strings.Split (Name f) "." with
  | title :: _ =>
      if String.eqb title EmptyString
      then inr (foreignError "media" "no title")
      else inl {| Mem.info := f; Mem.path := None; Mem.stream := EmptyString;
                  Mem.kind := Mem.KMovie {| movieMeta := Library.noRelease;
                                            MovieName := title; Year := 0 |} |}
  | [] => inr (foreignError "media" "no title")
  end.

Definition scanner : Scanner := {|
  os_IsNotExist := fun e => bool_decide (e = Mem.ENOENT);
  filepath_Walk := walkOf;
  media_New := newMedia
|}.

(** The same walk during which a file is deleted after its directory
    has been read: it is reported without file information. *)
Definition racing : Scanner := {|
  os_IsNotExist := fun e => bool_decide (e = Mem.ENOENT);
  filepath_Walk := fun root s =>
    match walkOf root s with
    | first :: rest =>
        first ::
        {| visitPath := String.append root "/Gone.mkv"; visitInfo := None;
           visitErr := Some Mem.ENOENT |} :: rest
    | [] => []
    end;
  media_New := newMedia
|}.

(** The library's disk with a video file whose name has no title. *)
Definition cluttered : FS := {|
  Mem.nodes := <["/in/.mkv"%string := Mem.File "no title" 5]>
                 (Mem.nodes Library.disk);
  Mem.clock := 6
|}.

(** The application with another action. *)
Definition appWith (action : string) (config : Configuration)
           (scrapers : list Scraper) : Application := {|
  Scrapers := scrapers;
  Config := config;
  viper_GetString := fun key =>
    if String.eqb key "action" then action else EmptyString
|}.

Definition quote : string := String "034" EmptyString.

(** A web setting: the undetermined tag is the one the small parser
    falls back to; the JSON object is written without escapes. *)
Definition web : @Web Mem.tags :=
  @Build_Web Mem.tags _ None
    (fun t => match t with
              | Some code => if String.eqb code "en" then "English"%string
                             else if String.eqb code "da" then "Danish"%string
                             else code
              | None => "Unknown language"%string
              end)
    (fun msg => inl (String.append "{"
                       (String.append quote
                       (String.append "error"
                       (String.append quote
                       (String.append ": "
                       (String.append quote
                       (String.append msg
                       (String.append quote "}"))))))))).

Definition languages : @api.API Mem.tags := {|
  api.Languages := [api.itemTag (Some "en"%string); api.itemOther;
                    api.itemTag (Some "da"%string)]
|}.

Definition get : api.Request := {|
  api.Method := "GET";
  api.QueryGet := fun _ => EmptyString
|}.

Definition post : api.Request := {|
  api.Method := "POST";
  api.QueryGet := fun _ => EmptyString
|}.

(** The encoder of the configuration is not used by the samples. *)
Definition noJSON {P : Type} (p : P) : string + error :=
  inr (foreignError "json" "not encoded").

End Samples.

(** Open up the sequencing of a computation over the world. *)
Ltac step := unfold mbind, M_bind, bind.
Ltac run :=
  unfold mbind, M_bind, bind, ret, orReturn, Stat, Remove, MkdirAll, openLocal,
    Create, Copy, osRename, Symlink, Link, reading, writing, log, call;
  cbn.

(* ===================================================================== *)
(** * Properties                                                         *)
(* ===================================================================== *)

(** ** [cleanString] and [truncateSpaces] *)

Section ReplaceAll.
Import Regexp.

Lemma class_In (members : list ascii) (c : ascii) :
  In c members -> class members c = true.
Proof.
  intros Hin. unfold class. apply existsb_exists.
  exists c. split; [exact Hin | apply Ascii.eqb_refl].
Qed.

(** Whatever is still to be skipped, no byte of the class survives a
    replacement by the empty string. *)
Lemma replaceAll_oneOf_class (members : list ascii) (src : list ascii) :
  forall (skip : nat) (c : ascii),
    In c (replaceAll (oneOf members) [] skip src) ->
    class members c = false.
Proof.
  induction src as [|b rest IH]; intros skip c Hin; simpl in Hin.
  - contradiction.
  - destruct skip as [|k].
    + destruct (class members b) eqn:Hb; simpl in Hin.
      * eapply IH; eassumption.
      * destruct Hin as [<- | Hin]; [exact Hb | eapply IH; eassumption].
    + eapply IH; eassumption.
Qed.

(** Skipping [k] bytes and then replacing is replacing in what is left
    after [k] bytes. *)
Lemma replaceAll_skip (re : Regexp) (repl : list ascii) (src : list ascii) :
  forall k, replaceAll re repl k src = replaceAll re repl 0 (skipn k src).
Proof.
  induction src as [|b rest IH]; intros [|k]; simpl; try reflexivity.
  apply IH.
Qed.

Lemma skipn_takeWhile (p : ascii -> bool) (s : list ascii) :
  skipn (List.length (takeWhile p s)) s = dropWhile p s.
Proof.
  induction s as [|b rest IH]; simpl; [reflexivity|].
  destruct (p b); simpl; [exact IH | reflexivity].
Qed.

Lemma dropWhile_length (p : ascii -> bool) (s : list ascii) :
  List.length (dropWhile p s) <= List.length s.
Proof.
  induction s as [|b rest IH]; simpl; [lia|].
  destruct (p b); simpl; lia.
Qed.

Lemma startsWith_dropWhile (p : ascii -> bool) (s : list ascii) :
  startsWith p (dropWhile p s) = false.
Proof.
  induction s as [|b rest IH]; simpl; [reflexivity|].
  destruct (p b) eqn:Hb; simpl; [exact IH | exact Hb].
Qed.

Section Runs.
Variable p : ascii -> bool.
Variable r : ascii.
Hypothesis p_r : p r = true.

(** The loop, one match at a time. *)
Lemma collapse_cons2 (c1 c2 : ascii) (rest : list ascii) :
  collapse p r (c1 :: c2 :: rest) =
  if p c1 && p c2 then r :: collapse p r (dropWhile p rest)
  else c1 :: collapse p r (c2 :: rest).
Proof.
  unfold collapse.
  change (replaceAll (twoOrMore p) [r] 0 (c1 :: c2 :: rest))
    with (match twoOrMore p (c1 :: c2 :: rest) with
          | O => c1 :: replaceAll (twoOrMore p) [r] 0 (c2 :: rest)
          | S k => [r] ++ replaceAll (twoOrMore p) [r] k (c2 :: rest)
          end).
  unfold twoOrMore. destruct (p c1 && p c2); [|reflexivity].
  cbn [Nat.add app].
  rewrite replaceAll_skip. cbn [skipn].
  rewrite skipn_takeWhile. reflexivity.
Qed.

Lemma collapse_single (c : ascii) : collapse p r [c] = [c].
Proof. reflexivity. Qed.

Lemma startsWith_collapse (s : list ascii) :
  startsWith p (collapse p r s) = startsWith p s.
Proof.
  destruct s as [|c1 [|c2 rest]]; try reflexivity.
  rewrite collapse_cons2.
  destruct (p c1) eqn:H1; destruct (p c2) eqn:H2; simpl;
    rewrite ?H1; auto.
Qed.

(** After one pass no two neighbours are both in [p]. *)
Lemma collapse_no_adjacent (s : list ascii) :
  adjacent p (collapse p r s) = false.
Proof.
  remember (List.length s) as n eqn:Hn.
  assert (Hle : List.length s <= n) by lia. clear Hn.
  revert s Hle. induction n as [|n IH]; intros s Hle.
  - destruct s; [reflexivity | simpl in Hle; lia].
  - destruct s as [|c1 [|c2 rest]].
    + reflexivity.
    + rewrite collapse_single. simpl. rewrite andb_false_r. reflexivity.
    + rewrite collapse_cons2. destruct (p c1 && p c2) eqn:Hm.
      * cbn [adjacent]. rewrite startsWith_collapse, startsWith_dropWhile.
        rewrite andb_false_r. simpl. apply IH.
        pose proof (dropWhile_length p rest). simpl in Hle. lia.
      * cbn [adjacent]. rewrite startsWith_collapse. cbn [startsWith].
        rewrite Hm. simpl. apply IH. simpl in Hle |- *. lia.
Qed.

(** A list without two such neighbours has no match and is copied. *)
Lemma collapse_fixed (s : list ascii) :
  adjacent p s = false -> collapse p r s = s.
Proof.
  induction s as [|c1 rest IH]; intros Hadj; [reflexivity|].
  destruct rest as [|c2 rest]; [reflexivity|].
  cbn [adjacent startsWith] in Hadj.
  apply orb_false_iff in Hadj as [Hm Hadj].
  rewrite collapse_cons2, Hm. f_equal. apply IH. exact Hadj.
Qed.

Lemma collapse_idempotent (s : list ascii) :
  collapse p r (collapse p r s) = collapse p r s.
Proof. apply collapse_fixed, collapse_no_adjacent. Qed.

End Runs.
End ReplaceAll.

Example cleanString_example :
  cleanString "AC/DC: Live?" = "ACDC Live"%string.
Proof. reflexivity. Qed.

Example truncateSpaces_example :
  truncateSpaces "a   b c" = "a b c"%string.
Proof. reflexivity. Qed.

(** C7: for every input, no byte of the output of [cleanString] is one
    of the characters the pattern removes: percent, slash, question mark,
    backslash, star, colon, bar, double quote, less-than, greater-than,
    newline, carriage return. *)
Theorem cleanString_removes_path_chars (str : string) (c : ascii) :
  In c (list_ascii_of_string (cleanString str)) ->
  c <> "%" /\ c <> "/" /\ c <> "?" /\ c <> "\" /\ c <> "*" /\ c <> ":" /\
  c <> "|" /\ c <> "034" /\ c <> "<" /\ c <> ">" /\ c <> "010" /\ c <> "013".
Proof.
  unfold cleanString, Regexp.ReplaceAllString, pathRegex.
  rewrite list_ascii_of_string_of_list_ascii. simpl list_ascii_of_string at 1.
  intros Hin. apply replaceAll_oneOf_class in Hin.
  repeat split; intros ->; vm_compute in Hin; discriminate.
Qed.

Lemma cleanString_removes_path_chars_witness :
  In "D" (list_ascii_of_string (cleanString "AC/DC")) /\ "D" <> "/".
Proof.
  split.
  - vm_compute. auto.
  - apply (cleanString_removes_path_chars "AC/DC" "D"). vm_compute. auto.
Defined.

(** C6: [truncateSpaces] is idempotent: truncating a truncated string
    changes nothing. *)
Theorem truncateSpaces_idempotent (s : string) :
  truncateSpaces (truncateSpaces s) = truncateSpaces s.
Proof.
  unfold truncateSpaces, Regexp.ReplaceAllString, spaceRegex.
  rewrite list_ascii_of_string_of_list_ascii. f_equal.
  apply collapse_idempotent. reflexivity.
Qed.

(** ** The scraper aggregator *)

Section Scraping.
Context `{Types} `{Provider}.

Lemma afterScraping_cons (m : Media) (s : Scraper) (ss : list Scraper)
      (w : World) :
  afterScraping m ss
    {| fs := fs w; logged := logged w; calls := calls w ++ [CallScrape s m] |}
  = afterScraping m (s :: ss) w.
Proof.
  unfold afterScraping. cbn [fs logged calls map].
  rewrite <- app_assoc. reflexivity.
Qed.

Lemma scrapeLoop_cons (s : Scraper) (later : list Scraper) (m : Media)
      (w : World) :
  scrapeLoop (s :: later) m w =
  let w' := {| fs := fs w; logged := logged w;
               calls := calls w ++ [CallScrape s m] |} in
  match Scrape s m with
  | inr err =>
      if IsErrMediaNotSupported err then scrapeLoop later m w'
      else (inr err, w')
  | inl scraped => (inl scraped, w')
  end.
Proof.
  cbn. destruct (Scrape s m) as [scraped|err]; [reflexivity|].
  destruct (IsErrMediaNotSupported err); reflexivity.
Qed.

Lemma scrapeLoop_outcome (scrapers : list Scraper) (m : Media) :
  forall w : World,
    (exists before s later scraped,
        scrapers = before ++ s :: later /\
        Forall (declines m) before /\
        Scrape s m = inl scraped /\
        scrapeLoop scrapers m w =
          (inl scraped, afterScraping m (before ++ [s]) w))
    \/
    (exists before s later err,
        scrapers = before ++ s :: later /\
        Forall (declines m) before /\
        Scrape s m = inr err /\
        IsErrMediaNotSupported err = false /\
        scrapeLoop scrapers m w =
          (inr err, afterScraping m (before ++ [s]) w))
    \/
    (Forall (declines m) scrapers /\
     scrapeLoop scrapers m w =
       (inr (errors_New "no scrapers to use for media"),
        afterScraping m scrapers w)).
Proof.
  induction scrapers as [|s later IH]; intros w.
  - right; right. split; [constructor|].
    unfold afterScraping. cbn. rewrite app_nil_r. destruct w; reflexivity.
  - rewrite scrapeLoop_cons. cbv zeta.
    destruct (Scrape s m) as [scraped|err] eqn:Hs.
    + left. exists [], s, later, scraped. repeat split; auto.
    + destruct (IsErrMediaNotSupported err) eqn:Hns.
      * assert (Hd : declines m s) by (exists err; auto).
        destruct (IH {| fs := fs w; logged := logged w;
                        calls := calls w ++ [CallScrape s m] |})
          as [(b & s' & l & r & -> & Hb & Hr & Heq)
             |[(b & s' & l & e & -> & Hb & Hr & He & Heq)
              |(Hall & Heq)]].
        -- left. exists (s :: b), s', l, r. repeat split; auto.
           rewrite Heq, afterScraping_cons. reflexivity.
        -- right; left. exists (s :: b), s', l, e. repeat split; auto.
           rewrite Heq, afterScraping_cons. reflexivity.
        -- right; right. split; [constructor; assumption|].
           rewrite Heq, afterScraping_cons. reflexivity.
      * right; left. exists [], s, later, err. repeat split; auto.
Qed.

(** C3: [scrapeMedia] calls the scrapers in their order.  A scraper
    that answers with a not-supported error makes it go on to the next;
    the first scraper that answers otherwise ends the search, with its
    result or with its error, and no later scraper is called; when all
    scrapers decline, the error is "no scrapers to use for media".
    The calls made are exactly the scrapers up to and including the
    one that ended the search. *)
Theorem scrapeMedia_in_order (a : Application) (m : Media) (w : World) :
  (exists before s later scraped,
      Scrapers a = before ++ s :: later /\
      Forall (declines m) before /\
      Scrape s m = inl scraped /\
      scrapeMedia a m w = (inl scraped, afterScraping m (before ++ [s]) w))
  \/
  (exists before s later err,
      Scrapers a = before ++ s :: later /\
      Forall (declines m) before /\
      Scrape s m = inr err /\
      IsErrMediaNotSupported err = false /\
      scrapeMedia a m w = (inr err, afterScraping m (before ++ [s]) w))
  \/
  (Forall (declines m) (Scrapers a) /\
   scrapeMedia a m w =
     (inr (errors_New "no scrapers to use for media"),
      afterScraping m (Scrapers a) w)).
Proof. unfold scrapeMedia. apply scrapeLoop_outcome. Qed.

End Scraping.

(** ** [Rename] and the four renamers *)

Section Renaming.
Context `{Types} `{Provider}.

(** C4: when [os.Stat] finds the destination and [force] is false,
    [Rename] returns [mediaExistsError] whatever the renamer is, and
    does nothing but that [Stat]: the file system is the one it
    started from (so the destination keeps its content and its
    modification time), the renamer is not run, nothing is logged. *)
Theorem Rename_existing_destination
        (r : renamer) (local : LocalMedia) (dest : string) (w : World)
        (info : FileInfo) :
  os_Stat dest (fs w) = inl info ->
  exists w',
    Rename r local dest false w = (Some mediaExistsError, w') /\
    fs w' = fs w /\
    logged w' = logged w /\
    calls w' = calls w ++ [CallStat dest] /\
    existsb isMutation [CallStat dest] = false.
Proof.
  intros Hstat. eexists. split.
  - unfold Rename. run. rewrite Hstat. reflexivity.
  - cbn. auto.
Qed.

(** The world once the parent directory of [dest] has been asked for. *)
Lemma MkdirAll_run (dest : string) (w : World) :
  MkdirAll (Filepath.Dir dest) ModeDir w =
  (fst (os_MkdirAll (Filepath.Dir dest) ModeDir (fs w)), afterMkdirAll dest w).
Proof.
  unfold MkdirAll, writing, afterMkdirAll.
  destruct (os_MkdirAll (Filepath.Dir dest) ModeDir (fs w)); reflexivity.
Qed.

(** C8, as the code has it: for a medium without a path, move, symlink
    and hardlink always fail, and the only call they make is the
    [MkdirAll] of the destination's directory, so no rename, symlink
    or link is attempted.  The error is the one of [MkdirAll] when
    that fails, and else the strategy's "can't ... media without a
    path".  The copy strategy does not ask for a path: it succeeds as
    soon as [MkdirAll], [Open], [Create] and [Copy] do. *)
Theorem pathless_strategies
        (local : LocalMedia) (dest : string) (w : World) :
  Path local = None ->
  let mkErr := fst (os_MkdirAll (Filepath.Dir dest) ModeDir (fs w)) in
  let w1 := afterMkdirAll dest w in
  let failure (msg : string) :=
    (Some (match mkErr with Some e => e | None => errors_New msg end), w1) in
  moveRenamer local dest w = failure "can't move media without a path"%string /\
  symlinkRenamer local dest w = failure "can't symlink media without a path"%string /\
  hardlinkRenamer local dest w = failure "can't hardlink media without a path"%string /\
  calls w1 = calls w ++ [CallMkdirAll (Filepath.Dir dest) ModeDir] /\
  existsb isLink [CallMkdirAll (Filepath.Dir dest) ModeDir] = false /\
  (forall (file : string) (fs2 fs3 : FS),
      mkErr = None ->
      Open local (fs w1) = inl file ->
      os_Create dest (fs w1) = (None, fs2) ->
      io_Copy dest file fs2 = (None, fs3) ->
      fst (copyRenamer local dest w) = None /\
      fs (snd (copyRenamer local dest w)) = fs3).
Proof.
  intros Hpath mkErr w1 failure.
  assert (Hrun : forall k : M (option error),
             (err ← MkdirAll (Filepath.Dir dest) ModeDir; orReturn err k) w =
             match mkErr with
             | Some e => (Some e, w1)
             | None => k w1
             end).
  { intros k. step. rewrite MkdirAll_run. fold mkErr w1.
    destruct mkErr; reflexivity. }
  split; [|split; [|split; [|split; [|split]]]].
  - unfold moveRenamer. rewrite Hrun, Hpath. unfold failure.
    destruct mkErr; reflexivity.
  - unfold symlinkRenamer. rewrite Hrun, Hpath. unfold failure.
    destruct mkErr; reflexivity.
  - unfold hardlinkRenamer. rewrite Hrun, Hpath. unfold failure.
    destruct mkErr; reflexivity.
  - reflexivity.
  - reflexivity.
  - intros file fs2 fs3 Hmk Hopen Hcreate Hcopy.
    unfold copyRenamer. rewrite Hrun, Hmk.
    unfold w1, afterMkdirAll in *. cbn [fs] in Hopen, Hcreate.
    run. rewrite Hopen. cbn. rewrite Hcreate. cbn. rewrite Hcopy.
    split; reflexivity.
Qed.

End Renaming.

(** ** The batch orchestrator *)

Section Orchestrator.
Context `{Types} `{Provider}.

(** One turn of the loop, up to the rename. *)
Lemma renameLoop_cons (a : Application) (doRename : renamer)
      (m : LocalMedia) (later : list LocalMedia) (w : World) :
  renameLoop a doRename (m :: later) w =
  match scrapeMedia a (upcast m) w with
  | (inr err, w1) => (Some err, w1)
  | (inl scraped, w1) =>
      match Merge m scraped with
      | (Some err, _) => (Some err, w1)
      | (None, m') =>
          match renameByType a m' doRename w1 with
          | (err, w2) =>
              if Strict (Config a) && negb (isNil err) then (err, w2)
              else renameLoop a doRename later (snd (report a m' err w2))
          end
      end
  end.
Proof.
  cbn [renameLoop]. step.
  destruct (scrapeMedia a (upcast m) w) as [[scraped|err] w1]; [|reflexivity].
  destruct (Merge m scraped) as [[err|] m']; [reflexivity|].
  cbn [orReturn]. step.
  destruct (renameByType a m' doRename w1) as [err w2].
  destruct (Strict (Config a) && negb (isNil err)); [reflexivity|].
  destruct (report a m' err w2) as [[] w3]. reflexivity.
Qed.

(** A scrape error ends the loop at once, strict or not. *)
Lemma renameLoop_scrape_error (a : Application) (doRename : renamer)
      (m : LocalMedia) (later : list LocalMedia) (w w1 : World) (err : error) :
  scrapeMedia a (upcast m) w = (inr err, w1) ->
  renameLoop a doRename (m :: later) w = (Some err, w1).
Proof. intros Hs. rewrite renameLoop_cons, Hs. reflexivity. Qed.

(** So does a merge error. *)
Lemma renameLoop_merge_error (a : Application) (doRename : renamer)
      (m m' : LocalMedia) (later : list LocalMedia) (w w1 : World)
      (scraped : Media) (err : error) :
  scrapeMedia a (upcast m) w = (inl scraped, w1) ->
  Merge m scraped = (Some err, m') ->
  renameLoop a doRename (m :: later) w = (Some err, w1).
Proof. intros Hs Hm. rewrite renameLoop_cons, Hs, Hm. reflexivity. Qed.

(** C1, as the code has it: when the rename of a scraped and merged
    medium fails with [mediaExistsError], a lenient run logs "Rename
    skipped" at warn level, which is below the error level of a failed
    rename, and goes on with the media that follow; a strict run
    returns the error at once, like any other rename error, and logs
    nothing for it. *)
Theorem RenameMedia_media_exists
        (a : Application) (doRename : renamer) (m m' : LocalMedia)
        (later : list LocalMedia) (scraped : Media) (w w1 w2 : World) :
  Renamers !! viper_GetString a "action" = Some doRename ->
  scrapeMedia a (upcast m) w = (inl scraped, w1) ->
  Merge m scraped = (None, m') ->
  renameByType a m' doRename w1 = (Some mediaExistsError, w2) ->
  (Strict (Config a) = false ->
   RenameMedia a (m :: later) w = RenameMedia a later (skipped a m' w2) /\
   severity WarnLevel < severity ErrorLevel) /\
  (Strict (Config a) = true ->
   RenameMedia a (m :: later) w = (Some mediaExistsError, w2)).
Proof.
  intros Hact Hscrape Hmerge Hrename. unfold RenameMedia. rewrite Hact.
  rewrite renameLoop_cons, Hscrape, Hmerge, Hrename.
  split; intros ->; cbn [andb negb isNil].
  - split; [reflexivity | cbn; lia].
  - reflexivity.
Qed.

End Orchestrator.

(** ** Local subtitles *)

Section Names.

(** [filepath.Ext] gives a non-empty extension only when the path has
    a dot. *)
Lemma extLoop_dot (rpath : list ascii) :
  forall suffix, Filepath.extLoop rpath suffix <> [] -> In "." rpath.
Proof.
  induction rpath as [|c before IH]; intros suffix Hne; cbn in Hne.
  - congruence.
  - destruct (Filepath.IsPathSeparator c); [congruence|].
    destruct (Ascii.eqb c ".") eqn:Hc.
    + apply Ascii.eqb_eq in Hc. left. auto.
    + right. eapply IH. eassumption.
Qed.

Lemma splitLoop_nonempty (sep : list ascii) (s : list ascii) :
  forall skip cur, 1 <= List.length (Strings.splitLoop sep skip cur s).
Proof.
  induction s as [|c rest IH]; intros skip cur; cbn.
  - lia.
  - destruct skip; [|apply IH].
    destruct (isPrefix sep (c :: rest)); [cbn; lia | apply IH].
Qed.

(** One dot is enough for [strings.Split] to give two pieces. *)
Lemma splitLoop_dot (s : list ascii) :
  forall cur, In "." s -> 2 <= List.length (Strings.splitLoop ["."] 0 cur s).
Proof.
  induction s as [|c rest IH]; intros cur Hin; [destruct Hin|].
  cbn [Strings.splitLoop isPrefix].
  destruct (Ascii.eqb "." c) eqn:Hc; cbn [andb].
  - cbn [List.length]. pose proof (splitLoop_nonempty ["."] rest (1 - 1) []). lia.
  - apply Ascii.eqb_neq in Hc.
    destruct Hin as [Heq | Hin]; [congruence|].
    apply IH. exact Hin.
Qed.

Lemma Split_after_Ext (name : string) :
  Filepath.Ext name = ".srt"%string ->
  2 <= List.length (Strings.Split name ".").
Proof.
  intros Hext. unfold Strings.Split. rewrite length_map.
  apply splitLoop_dot, in_rev. apply (extLoop_dot _ []).
  unfold Filepath.Ext in Hext. intros Hnil. rewrite Hnil in Hext.
  discriminate.
Qed.

End Names.

Section Subtitles.
Context `{LanguageTags}.

Lemma NewLocalSubtitle_srt (file : FileInfo) :
  Filepath.Ext (Name file) = ".srt"%string ->
  media.NewLocalSubtitle file =
  inl {| media.file := file;
         media.lang := language_Make
                         (media.secondToLast (Strings.Split (Name file) ".")) |}.
Proof.
  intros Hext. unfold media.NewLocalSubtitle. rewrite Hext.
  change (String.eqb ".srt" ".srt") with true. cbn [negb].
  pose proof (Split_after_Ext _ Hext) as Hlen.
  destruct (Nat.ltb_spec (List.length (Strings.Split (Name file) ".")) 2);
    [lia | reflexivity].
Qed.

(** C5, as the code has it: for every file whose name has the
    extension [.srt], construction succeeds, and the language of the
    subtitle is [language.Make] of the second-to-last piece of the
    name between dots.  [Make] drops the error of the parser, so a
    piece that is no locale gives the tag the parser falls back to,
    not a failure. *)
Theorem NewLocalSubtitle_language (file : FileInfo) :
  Filepath.Ext (Name file) = ".srt"%string ->
  exists sub parts,
    media.NewLocalSubtitle file = inl sub /\
    parts = Strings.Split (Name file) "." /\
    2 <= List.length parts /\
    media.file sub = file /\
    media.Language sub =
      fst (language_Parse (nth (List.length parts - 2) parts EmptyString)).
Proof.
  intros Hext. eexists. eexists. split; [apply NewLocalSubtitle_srt, Hext|].
  split; [reflexivity|]. split; [apply Split_after_Ext, Hext|].
  split; reflexivity.
Qed.

(** C9: the "error parsing subtitle file" branch cannot be reached.  A
    name with the extension [.srt] has a dot, so splitting it at the
    dots gives at least two pieces; construction never returns that
    error, and when it fails, it is for a name whose extension is not
    [.srt]. *)
Theorem NewLocalSubtitle_parse_error_unreachable (file : FileInfo) :
  (Filepath.Ext (Name file) = ".srt"%string ->
   2 <= List.length (Strings.Split (Name file) ".")) /\
  media.NewLocalSubtitle file <> inr (errors_New "error parsing subtitle file") /\
  (forall err : error,
      media.NewLocalSubtitle file = inr err ->
      err = errors_New "parsing non subtitle file as subtitle" /\
      Filepath.Ext (Name file) <> ".srt"%string).
Proof.
  split; [apply Split_after_Ext|].
  destruct (String.eqb_spec (Filepath.Ext (Name file)) ".srt") as [Hext|Hext].
  - rewrite (NewLocalSubtitle_srt _ Hext). split; [discriminate|].
    intros err Herr. discriminate.
  - assert (Hnew : media.NewLocalSubtitle file =
                   inr (errors_New "parsing non subtitle file as subtitle")).
    { unfold media.NewLocalSubtitle.
      destruct (String.eqb_spec (Filepath.Ext (Name file)) ".srt");
        [contradiction | reflexivity]. }
    rewrite Hnew. split; [discriminate|].
    intros err Herr. inversion Herr. split; [reflexivity | exact Hext].
Qed.

(** C10: a local subtitle is never flagged as hearing-impaired:
    [IsHI] is false for every subtitle, and so for the one constructed
    from any file name. *)
Theorem IsHI_false :
  (forall l : media.LocalSubtitle, media.IsHI l = false) /\
  (forall (file : FileInfo) (l : media.LocalSubtitle),
      media.NewLocalSubtitle file = inl l -> media.IsHI l = false).
Proof. split; reflexivity. Qed.

End Subtitles.

(** ** The properties on the library *)

Section OnTheLibrary.
Import Library.
Local Open Scope string_scope.
Local Open Scope list_scope.
#[local] Existing Instances Mem.os Mem.types Mem.provider Mem.tags.

(** A scraper that declines, one that answers, one that is never
    asked. *)
Example scrapeMedia_declined_then_found :
  scrapeMedia (app lenient [tvDb; movieDb; offline]) (upcast heat) (start disk) =
  (inl (Mem.KMovie {| movieMeta := noRelease; MovieName := "Heat"; Year := 1995 |}),
   {| fs := disk; logged := [];
      calls := [CallScrape tvDb (upcast heat);
                CallScrape movieDb (upcast heat)] |}).
Proof. reflexivity. Qed.

Lemma Rename_existing_destination_witness :
  os_Stat "/movies/Heat.mkv" disk =
    inl {| Name := "Heat.mkv"; ModTime := 4; IsDir := false |} /\
  exists w',
    Rename copyRenamer heat "/movies/Heat.mkv" false (start disk) =
      (Some mediaExistsError, w') /\
    fs w' = disk /\
    logged w' = [] /\
    calls w' = [] ++ [CallStat "/movies/Heat.mkv"] /\
    existsb isMutation [CallStat "/movies/Heat.mkv"] = false.
Proof.
  split.
  - reflexivity.
  - apply (Rename_existing_destination copyRenamer heat "/movies/Heat.mkv"
             (start disk) {| Name := "Heat.mkv"; ModTime := 4; IsDir := false |}).
    reflexivity.
Defined.

(** The same for each of the four renamers: the older copy is still
    there, with its content and its time. *)
Example Rename_keeps_older_copy :
  Forall (fun r : renamer =>
            let out := Rename r heat "/movies/Heat.mkv" false (start disk) in
            fst out = Some mediaExistsError /\
            Mem.nodes (fs (snd out)) !! "/movies/Heat.mkv"%string =
              Some (Mem.File "older copy" 4) /\
            fs (snd out) = disk)
         [copyRenamer; moveRenamer; symlinkRenamer; hardlinkRenamer].
Proof. repeat constructor. Qed.

Lemma pathless_strategies_witness :
  Path streamed = None /\
  moveRenamer streamed "/movies/Stream.mkv" (start disk) =
    (Some (errors_New "can't move media without a path"),
     afterMkdirAll "/movies/Stream.mkv" (start disk)) /\
  symlinkRenamer streamed "/movies/Stream.mkv" (start disk) =
    (Some (errors_New "can't symlink media without a path"),
     afterMkdirAll "/movies/Stream.mkv" (start disk)) /\
  hardlinkRenamer streamed "/movies/Stream.mkv" (start disk) =
    (Some (errors_New "can't hardlink media without a path"),
     afterMkdirAll "/movies/Stream.mkv" (start disk)).
Proof.
  split; [reflexivity|].
  destruct (pathless_strategies streamed "/movies/Stream.mkv" (start disk)
              eq_refl) as (Hmove & Hsym & Hhard & _).
  split; [exact Hmove | split; [exact Hsym | exact Hhard]].
Defined.

(** The copy of the stream succeeds and puts its bytes at the
    destination. *)
Example copyRenamer_pathless :
  let out := copyRenamer streamed "/movies/Stream.mkv" (start disk) in
  fst out = None /\
  Mem.nodes (fs (snd out)) !! "/movies/Stream.mkv"%string =
    Some (Mem.File "bytes of the stream" 6).
Proof. split; reflexivity. Qed.

(** Against C8 as stated: when the directory of the destination cannot
    be made, here because the name of the movie directory is taken by
    a regular file, the three strategies return the error of
    [MkdirAll] for the medium without a path, not the "can't ... media
    without a path" error. *)
Lemma mkdir_error_before_path_check :
  Path streamed = None /\
  fst (moveRenamer streamed "/movies/Stream.mkv" (start blocked)) =
    Some Mem.ENOTDIR /\
  fst (symlinkRenamer streamed "/movies/Stream.mkv" (start blocked)) =
    Some Mem.ENOTDIR /\
  fst (hardlinkRenamer streamed "/movies/Stream.mkv" (start blocked)) =
    Some Mem.ENOTDIR /\
  Mem.ENOTDIR <> errors_New "can't move media without a path" /\
  Mem.ENOTDIR <> errors_New "can't symlink media without a path" /\
  Mem.ENOTDIR <> errors_New "can't hardlink media without a path".
Proof. repeat split; discriminate. Qed.

(** Against C1 as stated: in a strict run the first medium, whose
    destination is there already, ends the batch with
    [mediaExistsError]; no skip is logged and the second medium is
    never looked at. *)
Lemma RenameMedia_strict_media_exists :
  Strict (Config (app strict [movieDb])) = true /\
  RenameMedia (app strict [movieDb]) [heat; alien] (start disk) =
    (Some mediaExistsError,
     {| fs := disk; logged := [];
        calls := [CallScrape movieDb (upcast heat);
                  CallStat "/movies/Heat.mkv"] |}).
Proof. split; reflexivity. Qed.

Lemma RenameMedia_media_exists_witness :
  let a := app lenient [movieDb] in
  let found : Media :=
    Mem.KMovie {| movieMeta := noRelease; MovieName := "Heat"; Year := 1995 |} in
  let merged := snd (Merge heat found) in
  let w2 := {| fs := disk; logged := [];
               calls := [CallScrape movieDb (upcast heat);
                         CallStat "/movies/Heat.mkv"] |} in
  Strict (Config a) = false /\
  RenameMedia a [heat; alien] (start disk) =
    RenameMedia a [alien] (skipped a merged w2) /\
  severity WarnLevel < severity ErrorLevel.
Proof.
  intros a found merged w2. split; [reflexivity|].
  refine (proj1 (RenameMedia_media_exists a copyRenamer heat merged [alien]
                   found (start disk)
                   {| fs := disk; logged := [];
                      calls := [CallScrape movieDb (upcast heat)] |}
                   w2 _ _ _ _) _);
    reflexivity.
Defined.

(** The lenient run as a whole: a skip for Heat, then Alien is
    copied. *)
Example RenameMedia_lenient_run :
  let out := RenameMedia (app lenient [movieDb]) [heat; alien] (start disk) in
  fst out = None /\
  map (fun e => (level e, message e)) (logged (snd out)) =
    [(WarnLevel, "Rename skipped"%string);
     (DebugLevel, "Media copied"%string);
     (InfoLevel, "Media renamed"%string)] /\
  Mem.nodes (fs (snd out)) !! "/movies/Heat.mkv"%string =
    Some (Mem.File "older copy" 4) /\
  Mem.nodes (fs (snd out)) !! "/movies/Alien.mkv"%string =
    Some (Mem.File "alien bytes" 6).
Proof. repeat split; reflexivity. Qed.

(** C2 on the code: in a lenient run a medium that cannot be scraped,
    or cannot be merged, ends the batch.  The error is returned,
    nothing is logged for the medium, and the medium after it is never
    looked at: the only call made is the scrape of the first one. *)
Theorem RenameMedia_lenient_scrape_or_merge_failure :
  Strict lenient = false /\
  RenameMedia (app lenient [offline]) [heat; alien] (start disk) =
    (Some (foreignError "provider" "lookup failed"),
     {| fs := disk; logged := [];
        calls := [CallScrape offline (upcast heat)] |}) /\
  RenameMedia (app lenient [eager]) [subtitle; alien] (start disk) =
    (Some (errors_New "merging of subtitles is not supported"),
     {| fs := disk; logged := [];
        calls := [CallScrape eager (upcast subtitle)] |}).
Proof. repeat split; reflexivity. Qed.

(** The path next to the two early returns: in the same lenient run an
    error of the rename itself, here the missing template for tv shows,
    is logged as a failure and the loop goes on to copy Alien. *)
Example RenameMedia_lenient_rename_failure :
  let out := RenameMedia (app lenient [tvDb; movieDb]) [pilot; alien]
                         (start disk) in
  fst out = None /\
  map (fun e => (level e, message e)) (logged (snd out)) =
    [(ErrorLevel, "Rename failed");
     (DebugLevel, "Media copied");
     (InfoLevel, "Media renamed")] /\
  Mem.nodes (fs (snd out)) !! "/movies/Alien.mkv" =
    Some (Mem.File "alien bytes" 6).
Proof. repeat split; reflexivity. Qed.

(** Against C5 as stated: the piece before the extension of
    [Show.S01E02.srt] is no locale, the parser reports it, and the
    subtitle is constructed all the same, with the tag the parser
    falls back to. *)
Lemma NewLocalSubtitle_unparseable_token :
  let file := {| Name := "Show.S01E02.srt"; ModTime := 0; IsDir := false |} in
  Filepath.Ext (Name file) = ".srt"%string /\
  media.secondToLast (Strings.Split (Name file) ".") = "S01E02"%string /\
  snd (language_Parse "S01E02") =
    Some (foreignError "language" "tag is not well-formed") /\
  media.NewLocalSubtitle file = inl {| media.file := file; media.lang := None |}.
Proof. repeat split; reflexivity. Qed.

Lemma NewLocalSubtitle_language_witness :
  let file := {| Name := "Show.S01E02.en.srt"; ModTime := 0; IsDir := false |} in
  Filepath.Ext (Name file) = ".srt"%string /\
  exists sub parts,
    media.NewLocalSubtitle file = inl sub /\
    parts = Strings.Split (Name file) "." /\
    2 <= List.length parts /\
    media.file sub = file /\
    media.Language sub =
      fst (language_Parse (nth (List.length parts - 2) parts EmptyString)).
Proof.
  intros file. split; [reflexivity|].
  apply (NewLocalSubtitle_language file). reflexivity.
Defined.

Example NewLocalSubtitle_english :
  media.NewLocalSubtitle
    {| Name := "Show.S01E02.en.srt"; ModTime := 0; IsDir := false |} =
  inl {| media.file := {| Name := "Show.S01E02.en.srt"; ModTime := 0;
                          IsDir := false |};
         media.lang := Some "en"%string |}.
Proof. reflexivity. Qed.

Lemma NewLocalSubtitle_parse_error_unreachable_witness :
  let file := {| Name := "Show.S01E02.en.srt"; ModTime := 0; IsDir := false |} in
  Filepath.Ext (Name file) = ".srt"%string /\
  2 <= List.length (Strings.Split (Name file) ".").
Proof.
  intros file. split; [reflexivity|].
  apply (proj1 (NewLocalSubtitle_parse_error_unreachable file)). reflexivity.
Defined.

Lemma IsHI_false_witness :
  let file := {| Name := "Show.S01E02.en.srt"; ModTime := 0; IsDir := false |} in
  let sub := {| media.file := file; media.lang := Some "en"%string |} in
  media.NewLocalSubtitle file = inl sub /\ media.IsHI sub = false.
Proof.
  intros file sub. split; [reflexivity|].
  apply (proj2 IsHI_false file sub). reflexivity.
Defined.

End OnTheLibrary.

(* ===================================================================== *)
(** * Further properties                                                 *)
(* ===================================================================== *)

(** ** Strings and lists of bytes *)

Section Bytes.

Lemma list_ascii_of_string_append (a b : string) :
  list_ascii_of_string (String.append a b) =
  list_ascii_of_string a ++ list_ascii_of_string b.
Proof.
  induction a as [|c a IH]; [reflexivity|].
  change (c :: list_ascii_of_string (String.append a b) =
          c :: (list_ascii_of_string a ++ list_ascii_of_string b)).
  f_equal. exact IH.
Qed.

Lemma string_of_list_ascii_app (a b : list ascii) :
  string_of_list_ascii (a ++ b) =
  String.append (string_of_list_ascii a) (string_of_list_ascii b).
Proof.
  induction a as [|c a IH]; [reflexivity|].
  change (String c (string_of_list_ascii (a ++ b)) =
          String c (String.append (string_of_list_ascii a) (string_of_list_ascii b))).
  f_equal. exact IH.
Qed.

Lemma list_ascii_of_string_inj (a b : string) :
  list_ascii_of_string a = list_ascii_of_string b -> a = b.
Proof.
  intros Heq. rewrite <- (string_of_list_ascii_of_string a).
  rewrite <- (string_of_list_ascii_of_string b). rewrite Heq. reflexivity.
Qed.

Lemma filter_fixed {A} (f : A -> bool) (l : list A) :
  List.filter f l = l <-> (forall x, In x l -> f x = true).
Proof.
  induction l as [|a l IH]; cbn.
  - split; [intros _ x [] | reflexivity].
  - destruct (f a) eqn:Ha.
    + split.
      * intros Heq x [<- | Hin]; [exact Ha|]. apply IH; [congruence | exact Hin].
      * intros Hall. f_equal. apply IH. intros x Hin. apply Hall. right. exact Hin.
    + split.
      * intros Heq. exfalso.
        assert (Hlen : List.length (List.filter f l) = S (List.length l))
          by (rewrite Heq; reflexivity).
        pose proof (filter_length_le f l). lia.
      * intros Hall. specialize (Hall a (or_introl eq_refl)). congruence.
Qed.

Lemma class_true_In (members : list ascii) (c : ascii) :
  Regexp.class members c = true -> In c members.
Proof.
  unfold Regexp.class. intros Hex. apply existsb_exists in Hex as (x & Hin & Heq).
  apply Ascii.eqb_eq in Heq. subst. exact Hin.
Qed.

(** Replacing the matches of a one-byte class by nothing is filtering
    the class out. *)
Lemma replaceAll_oneOf_filter (members : list ascii) (src : list ascii) :
  Regexp.replaceAll (Regexp.oneOf members) [] 0 src =
  List.filter (fun c => negb (Regexp.class members c)) src.
Proof.
  induction src as [|b rest IH]; cbn; [reflexivity|].
  destruct (Regexp.class members b); cbn; rewrite IH; reflexivity.
Qed.

End Bytes.

Lemma cleanString_bytes (str : string) :
  list_ascii_of_string (cleanString str) =
  List.filter (fun c => negb (Regexp.class pathChars c))
              (list_ascii_of_string str).
Proof.
  unfold cleanString, Regexp.ReplaceAllString, pathRegex.
  rewrite list_ascii_of_string_of_list_ascii. apply replaceAll_oneOf_filter.
Qed.

(** X1: [cleanString] keeps every byte that is none of the twelve
    characters of the pattern, in its place among the others: its
    output is the input with exactly those characters filtered out. *)
Theorem cleanString_is_filter (str : string) :
  list_ascii_of_string (cleanString str) =
  List.filter (fun c => negb (Regexp.class pathChars c))
              (list_ascii_of_string str).
Proof. apply cleanString_bytes. Qed.

(** X2: [cleanString] returns its input unchanged exactly when the
    input has none of the characters of the pattern. *)
Theorem cleanString_fixed_iff (str : string) :
  cleanString str = str <->
  (forall c, In c (list_ascii_of_string str) -> ~ In c pathChars).
Proof.
  split.
  - intros Hfix c Hin Hbad.
    assert (Hl : list_ascii_of_string (cleanString str) = list_ascii_of_string str)
      by (rewrite Hfix; reflexivity).
    rewrite cleanString_bytes in Hl.
    apply filter_fixed with (x := c) in Hl; [|exact Hin].
    rewrite (class_In _ _ Hbad) in Hl. discriminate.
  - intros Hnone. apply list_ascii_of_string_inj.
    rewrite cleanString_bytes. apply filter_fixed.
    intros c Hin. destruct (Regexp.class pathChars c) eqn:Hc; [|reflexivity].
    exfalso. apply (Hnone c Hin). apply class_true_In. exact Hc.
Qed.

(** X3: [cleanString] works byte by byte: cleaning a concatenation is
    concatenating the cleaned parts. *)
Theorem cleanString_append (a b : string) :
  cleanString (String.append a b) =
  String.append (cleanString a) (cleanString b).
Proof.
  apply list_ascii_of_string_inj.
  rewrite (list_ascii_of_string_append (cleanString a)).
  rewrite !cleanString_bytes.
  rewrite (list_ascii_of_string_append a). apply List.filter_app.
Qed.

Section Whitespace.
Variable p : ascii -> bool.

Lemma adjacent_split (l : list ascii) :
  adjacent p l = false <->
  (forall pre c1 c2 post, l = pre ++ c1 :: c2 :: post -> p c1 && p c2 = false).
Proof.
  induction l as [|a l IH].
  - split; [|reflexivity]. intros _ [|x pre] c1 c2 post Heq; discriminate.
  - cbn [adjacent]. rewrite orb_false_iff, IH. split.
    + intros [Hhead Htail] [|x pre] c1 c2 post Heq.
      * cbn in Heq. inversion Heq; subst. exact Hhead.
      * cbn in Heq. inversion Heq; subst. eapply Htail. reflexivity.
    + intros Hall. split.
      * destruct l as [|b l]; [cbn; apply andb_false_r|].
        apply (Hall [] a b l). reflexivity.
      * intros pre c1 c2 post Heq. apply (Hall (a :: pre) c1 c2 post).
        rewrite Heq. reflexivity.
Qed.

Lemma filter_dropWhile (l : list ascii) :
  List.filter (fun c => negb (p c)) (dropWhile p l) =
  List.filter (fun c => negb (p c)) l.
Proof.
  induction l as [|a l IH]; [reflexivity|]. cbn [dropWhile].
  destruct (p a) eqn:Ha; [|reflexivity].
  cbn [List.filter]. rewrite Ha. exact IH.
Qed.

Variable r : ascii.
Hypothesis p_r : p r = true.

(** One pass leaves the bytes outside [p] as they are and never adds a
    byte. *)
Lemma collapse_keeps (s : list ascii) :
  List.filter (fun c => negb (p c)) (collapse p r s) =
  List.filter (fun c => negb (p c)) s /\
  List.length (collapse p r s) <= List.length s.
Proof.
  remember (List.length s) as n eqn:Hn.
  assert (Hle : List.length s <= n) by lia. clear Hn.
  revert s Hle. induction n as [|n IH]; intros s Hle.
  - destruct s; [split; [reflexivity | cbn; lia] | cbn in Hle; lia].
  - destruct s as [|c1 [|c2 rest]].
    + split; [reflexivity | cbn; lia].
    + rewrite collapse_single. split; [reflexivity | lia].
    + rewrite collapse_cons2. destruct (p c1 && p c2) eqn:Hm.
      * apply andb_true_iff in Hm as [H1 H2].
        pose proof (dropWhile_length p rest) as Hd.
        destruct (IH (dropWhile p rest)) as [Hf Hl]; [cbn in Hle; lia|].
        split.
        -- cbn [List.filter]. rewrite p_r, H1, H2. cbn [negb].
           rewrite Hf. apply filter_dropWhile.
        -- cbn [List.length]. lia.
      * destruct (IH (c2 :: rest)) as [Hf Hl]; [cbn in Hle |- *; lia|].
        split.
        -- cbn [List.filter] in Hf |- *. rewrite Hf. reflexivity.
        -- cbn [List.length] in Hl |- *. lia.
Qed.

End Whitespace.

Lemma truncateSpaces_bytes (s : string) :
  list_ascii_of_string (truncateSpaces s) =
  collapse Regexp.perlSpace " " (list_ascii_of_string s).
Proof.
  unfold truncateSpaces, Regexp.ReplaceAllString, spaceRegex.
  rewrite list_ascii_of_string_of_list_ascii. reflexivity.
Qed.

(** X4: the output of [truncateSpaces] has no two neighbouring
    whitespace bytes (tab, newline, form feed, carriage return, space). *)
Theorem truncateSpaces_no_run (s : string) (pre post : list ascii) (c1 c2 : ascii) :
  list_ascii_of_string (truncateSpaces s) = pre ++ c1 :: c2 :: post ->
  Regexp.perlSpace c1 && Regexp.perlSpace c2 = false.
Proof.
  rewrite truncateSpaces_bytes. intros Heq.
  eapply adjacent_split; [|exact Heq].
  apply collapse_no_adjacent. reflexivity.
Qed.

(** X5: [truncateSpaces] returns its input unchanged exactly when the
    input has no two neighbouring whitespace bytes; a single tab or
    newline between words is not turned into a space. *)
Theorem truncateSpaces_fixed_iff (s : string) :
  truncateSpaces s = s <->
  (forall pre c1 c2 post,
      list_ascii_of_string s = pre ++ c1 :: c2 :: post ->
      Regexp.perlSpace c1 && Regexp.perlSpace c2 = false).
Proof.
  rewrite <- adjacent_split. split.
  - intros Hfix. rewrite <- Hfix, truncateSpaces_bytes.
    apply collapse_no_adjacent. reflexivity.
  - intros Hadj. apply list_ascii_of_string_inj. rewrite truncateSpaces_bytes.
    apply collapse_fixed. exact Hadj.
Qed.

Lemma length_bytes (s : string) :
  String.length s = List.length (list_ascii_of_string s).
Proof. induction s as [|c s IH]; cbn; [reflexivity | f_equal; exact IH]. Qed.

(** X6: [truncateSpaces] touches whitespace only: the bytes that are no
    whitespace come out as they went in, in the same order, and the
    output is never longer than the input. *)
Theorem truncateSpaces_keeps_text (s : string) :
  List.filter (fun c => negb (Regexp.perlSpace c))
              (list_ascii_of_string (truncateSpaces s)) =
  List.filter (fun c => negb (Regexp.perlSpace c)) (list_ascii_of_string s) /\
  String.length (truncateSpaces s) <= String.length s.
Proof.
  rewrite !length_bytes, truncateSpaces_bytes.
  apply collapse_keeps. reflexivity.
Qed.

(** ** More on [Rename] and the renamers *)

Section RenamerRuns.
Context `{Types} `{Provider}.

Lemma Stat_run (dest : string) (w : World) :
  Stat dest w = (os_Stat dest (fs w), called (CallStat dest) w).
Proof. reflexivity. Qed.

(** X7: when [os.Stat] fails on the destination, [Rename] removes
    nothing and hands over to the renamer, whatever [force] is: the
    outcome is the renamer's, run after the one [Stat]. *)
Theorem Rename_absent_destination
        (r : renamer) (local : LocalMedia) (dest : string) (force : bool)
        (w : World) (err : error) :
  os_Stat dest (fs w) = inr err ->
  Rename r local dest force w = r local dest (called (CallStat dest) w).
Proof.
  intros Hstat. unfold Rename. step. rewrite Stat_run, Hstat.
  cbn [isNil]. rewrite andb_false_r. reflexivity.
Qed.

(** X8: with [force], a destination that is there is removed before
    the renamer runs.  When the removal fails, its error is returned,
    the renamer is not run and nothing is logged; when it succeeds,
    "Removed existing media" is logged at debug level and the outcome
    is the renamer's on the file system without the destination. *)
Theorem Rename_forced
        (r : renamer) (local : LocalMedia) (dest : string) (w : World)
        (info : FileInfo) :
  os_Stat dest (fs w) = inl info ->
  let removal := os_Remove dest (fs w) in
  let w1 := {| fs := snd removal; logged := logged w;
               calls := calls w ++ [CallStat dest; CallRemove dest] |} in
  Rename r local dest true w =
  match fst removal with
  | Some err => (Some err, w1)
  | None =>
      r local dest
        {| fs := fs w1;
           logged := logged w ++
                     [{| level := DebugLevel;
                         fields := [("path"%string, VString dest)];
                         message := "Removed existing media" |}];
           calls := calls w1 |}
  end.
Proof.
  intros Hstat removal w1. unfold Rename. step. rewrite Stat_run, Hstat.
  cbn [isNil negb andb]. unfold Remove, writing, called. cbn [fs logged calls].
  subst w1 removal. destruct (os_Remove dest (fs w)) as [[err|] fs1];
    cbn [fst snd orReturn]; rewrite <- app_assoc; reflexivity.
Qed.

(** X9: each of the four renamers asks for the directory of the
    destination first, and when [os.MkdirAll] fails it returns that
    error having made no other call: nothing is opened, created, moved
    or linked, and nothing is logged. *)
Theorem renamers_mkdir_failure
        (local : LocalMedia) (dest : string) (w : World) (err : error) :
  fst (os_MkdirAll (Filepath.Dir dest) ModeDir (fs w)) = Some err ->
  copyRenamer local dest w = (Some err, afterMkdirAll dest w) /\
  moveRenamer local dest w = (Some err, afterMkdirAll dest w) /\
  symlinkRenamer local dest w = (Some err, afterMkdirAll dest w) /\
  hardlinkRenamer local dest w = (Some err, afterMkdirAll dest w).
Proof.
  intros Hmk.
  repeat split;
    [unfold copyRenamer | unfold moveRenamer | unfold symlinkRenamer
     | unfold hardlinkRenamer];
    step; rewrite MkdirAll_run, Hmk; reflexivity.
Qed.

(** Which renamers the table holds. *)
Lemma Renamers_lookup (name : string) (r : renamer) :
  Renamers !! name = Some r ->
  (name = "copy"%string /\ r = copyRenamer) \/
  (name = "move"%string /\ r = moveRenamer) \/
  (name = "symlink"%string /\ r = symlinkRenamer) \/
  (name = "hardlink"%string /\ r = hardlinkRenamer).
Proof.
  intros Hl. unfold Renamers in Hl. apply elem_of_list_to_map_2 in Hl.
  repeat (apply elem_of_cons in Hl as [Hl|Hl];
          [inversion Hl; subst; tauto|]).
  apply elem_of_nil in Hl. contradiction.
Qed.

Lemma renamer_logs (r : renamer) (local : LocalMedia) (dest : string) (w : World) :
  r = copyRenamer \/ r = moveRenamer \/ r = symlinkRenamer \/ r = hardlinkRenamer ->
  match r local dest w with
  | (None, w') => logsSuccess dest w w'
  | (Some _, w') => logged w' = logged w
  end.
Proof.
  intros [-> | [-> | [-> | ->]]];
    [unfold copyRenamer | unfold moveRenamer | unfold symlinkRenamer
     | unfold hardlinkRenamer];
    run.
  - destruct (os_MkdirAll _ _ _) as [[e|] fs1]; cbn; [reflexivity|].
    destruct (Open local fs1) as [file|e]; cbn; [|reflexivity].
    destruct (os_Create dest fs1) as [[e|] fs2]; cbn; [reflexivity|].
    destruct (io_Copy dest file fs2) as [[e|] fs3]; cbn; [reflexivity|].
    eexists. reflexivity.
  - destruct (os_MkdirAll _ _ _) as [[e|] fs1]; cbn; [reflexivity|].
    destruct (Path local) as [mpath|]; cbn; [|reflexivity].
    destruct (os_Rename mpath dest fs1) as [[e|] fs2]; cbn; [reflexivity|].
    eexists. reflexivity.
  - destruct (os_MkdirAll _ _ _) as [[e|] fs1]; cbn; [reflexivity|].
    destruct (Path local) as [mpath|]; cbn; [|reflexivity].
    destruct (os_Symlink mpath dest fs1) as [[e|] fs2]; cbn; [reflexivity|].
    eexists. reflexivity.
  - destruct (os_MkdirAll _ _ _) as [[e|] fs1]; cbn; [reflexivity|].
    destruct (Path local) as [mpath|]; cbn; [|reflexivity].
    destruct (os_Link mpath dest fs1) as [[e|] fs2]; cbn; [reflexivity|].
    eexists. reflexivity.
Qed.

(** X10: a renamer of the table logs exactly when it succeeds: when it
    returns nil, the log has grown by one debug entry that carries the
    destination; when it returns an error, the log is as it was. *)
Theorem renamers_log_on_success
        (name : string) (r : renamer) (local : LocalMedia) (dest : string)
        (w : World) :
  Renamers !! name = Some r ->
  match r local dest w with
  | (None, w') => logsSuccess dest w w'
  | (Some _, w') => logged w' = logged w
  end.
Proof.
  intros Hl. apply renamer_logs.
  destruct (Renamers_lookup _ _ Hl) as [[_ ->]|[[_ ->]|[[_ ->]|[_ ->]]]]; tauto.
Qed.


(** X12: an action that is none of copy, move, symlink and hardlink is
    refused before anything is done: [RenameMedia] returns
    "<action>: unknown action" for every media list, and the world is
    untouched. *)
Theorem RenameMedia_unknown_action
        (a : Application) (list : list LocalMedia) (w : World) :
  ~ In (viper_GetString a "action")
       ["copy"; "move"; "symlink"; "hardlink"]%string ->
  RenameMedia a list w =
  (Some (errorString (String.append (viper_GetString a "action")
                                    ": unknown action")), w).
Proof.
  intros Hnot. unfold RenameMedia.
  destruct (Renamers !! viper_GetString a "action") as [r|] eqn:Hl;
    [|reflexivity].
  exfalso. apply Hnot.
  destruct (Renamers_lookup _ _ Hl) as [[-> _]|[[-> _]|[[-> _]|[-> _]]]];
    cbn; tauto.
Qed.

End RenamerRuns.

(** ** More on the batch orchestrator *)

Section BatchRuns.
Context `{Types} `{Provider}.




(** X15: in a lenient run the loop logs one entry for each medium it
    has scraped and merged and goes on to the next: "Media renamed" at
    info level when the rename returned nil, "Rename skipped" at warn
    level for [mediaExistsError], and "Rename failed" at error level,
    with the error attached, for any other error. *)
Theorem RenameMedia_lenient_item
        (a : Application) (doRename : renamer) (m m' : LocalMedia)
        (later : list LocalMedia) (scraped : Media) (w w1 w2 : World)
        (err : option error) :
  Strict (Config a) = false ->
  Renamers !! viper_GetString a "action" = Some doRename ->
  scrapeMedia a (upcast m) w = (inl scraped, w1) ->
  Merge m scraped = (None, m') ->
  renameByType a m' doRename w1 = (err, w2) ->
  exists entry,
    RenameMedia a (m :: later) w =
      RenameMedia a later {| fs := fs w2; logged := logged w2 ++ [entry];
                             calls := calls w2 |} /\
    (level entry, message entry) =
      match err with
      | None => (InfoLevel, "Media renamed"%string)
      | Some mediaExistsError => (WarnLevel, "Rename skipped"%string)
      | Some _ => (ErrorLevel, "Rename failed"%string)
      end /\
    (forall e, err = Some e -> e <> mediaExistsError ->
               In ("error"%string, VError e) (fields entry)).
Proof.
  intros Hstrict Hact Hscrape Hmerge Hrename. unfold RenameMedia. rewrite Hact.
  rewrite renameLoop_cons, Hscrape, Hmerge, Hrename, Hstrict. cbn [andb].
  destruct err as [[msg| |pkg msg]|]; cbn; eexists;
    (split; [reflexivity|]); (split; [reflexivity|]);
    intros e He Hne; inversion He; subst; try contradiction; cbn; tauto.
Qed.

(** X16: a lenient run in which every medium can be scraped and merged
    returns nil, whatever happens when the media are renamed: errors of
    the rename stage are logged, never returned. *)
Theorem RenameMedia_lenient_returns_nil
        (a : Application) (doRename : renamer) (list : list LocalMedia) :
  Strict (Config a) = false ->
  Renamers !! viper_GetString a "action" = Some doRename ->
  Forall (fun m => exists scraped,
              (forall w, fst (scrapeMedia a (upcast m) w) = inl scraped) /\
              fst (Merge m scraped) = None) list ->
  forall w : World, fst (RenameMedia a list w) = None.
Proof.
  intros Hstrict Hact Hall. unfold RenameMedia. rewrite Hact.
  induction Hall as [|m later (scraped & Hscrape & Hmerge) _ IH]; intros w.
  - reflexivity.
  - rewrite renameLoop_cons. specialize (Hscrape w).
    destruct (scrapeMedia a (upcast m) w) as [res w1]. cbn [fst] in Hscrape.
    subst res. destruct (Merge m scraped) as [mergeErr m']. cbn [fst] in Hmerge.
    subst mergeErr. destruct (renameByType a m' doRename w1) as [err w2].
    rewrite Hstrict. cbn [andb]. apply IH.
Qed.

End BatchRuns.

(** ** The names [renameMovie] and [renameEpisode] build *)

Lemma cleanString_clean (str : string) (c : ascii) :
  In c (list_ascii_of_string (cleanString str)) -> ~ In c pathChars.
Proof.
  rewrite cleanString_bytes. intros Hin Hbad.
  apply List.filter_In in Hin as [_ Hc].
  rewrite (class_In _ _ Hbad) in Hc. discriminate.
Qed.

Section RenderedNames.
Context `{Types} `{Provider}.

(** X17: [renameMovie] makes no call when the movie template is
    missing or fails: it returns "missing template for movies", or the
    error of the template, in an untouched world.  The title and the
    group it hands to the template contain none of the path characters;
    year, quality and codec are the movie's own.  What it then renames
    to is the movie directory joined with the rendered name followed by
    the extension of the local file, runs of whitespace truncated, with
    [Force] from the configuration. *)
Theorem renameMovie_outcome
        (a : Application) (local : LocalMedia) (m : Movie) (rename : renamer)
        (w : World) :
  match Template (Movies (Config a)) with
  | None =>
      renameMovie a local m rename w =
      (Some (errors_New "missing template for movies"), w)
  | Some template =>
      exists data : MovieData.t,
        (forall c, In c (list_ascii_of_string (MovieData.Movie data)) \/
                   In c (list_ascii_of_string (MovieData.Group data)) ->
                   ~ In c pathChars) /\
        MovieData.Year data = Year m /\
        MovieData.Quality data = Quality (movieMeta m) /\
        MovieData.Codec data = Codec (movieMeta m) /\
        renameMovie a local m rename w =
        match template data with
        | inr err => (Some err, w)
        | inl buf =>
            Rename rename local
                   (Filepath.Join
                      [Directory (Movies (Config a));
                       truncateSpaces
                         (String.append buf (Filepath.Ext (Name (Info local))))])
                   (Force (Config a)) w
        end
  end.
Proof.
  unfold renameMovie. destruct (Template (Movies (Config a))) as [template|];
    [|reflexivity].
  exists {| MovieData.Movie := cleanString (MovieName m);
            MovieData.Year := Year m;
            MovieData.Quality := Quality (movieMeta m);
            MovieData.Codec := Codec (movieMeta m);
            MovieData.Group := cleanString (Group (movieMeta m)) |}.
  split; [|split; [|split; [|split]]]; try reflexivity.
  - cbn [MovieData.Movie MovieData.Group].
    intros c [Hin | Hin]; eapply cleanString_clean; exact Hin.
  - cbv zeta. destruct (template _); reflexivity.
Qed.

(** X18: the same for [renameEpisode]: no call without a rendered
    template; show, episode name and group are handed over without path
    characters, episode and season numbers, quality and codec as they
    are; the destination is under the tv show directory. *)
Theorem renameEpisode_outcome
        (a : Application) (local : LocalMedia) (e : Episode) (rename : renamer)
        (w : World) :
  match Template (TVShows (Config a)) with
  | None =>
      renameEpisode a local e rename w =
      (Some (errors_New "missing template for tvshows"), w)
  | Some template =>
      exists data : EpisodeData.t,
        (forall c, In c (list_ascii_of_string (EpisodeData.TVShow data)) \/
                   In c (list_ascii_of_string (EpisodeData.Name data)) \/
                   In c (list_ascii_of_string (EpisodeData.Group data)) ->
                   ~ In c pathChars) /\
        EpisodeData.Episode data = EpisodeNumber e /\
        EpisodeData.Season data = Season e /\
        EpisodeData.Quality data = Quality (episodeMeta e) /\
        EpisodeData.Codec data = Codec (episodeMeta e) /\
        renameEpisode a local e rename w =
        match template data with
        | inr err => (Some err, w)
        | inl buf =>
            Rename rename local
                   (Filepath.Join
                      [Directory (TVShows (Config a));
                       truncateSpaces
                         (String.append buf (Filepath.Ext (Name (Info local))))])
                   (Force (Config a)) w
        end
  end.
Proof.
  unfold renameEpisode. destruct (Template (TVShows (Config a))) as [template|];
    [|reflexivity].
  exists {| EpisodeData.TVShow := cleanString (TVShow e);
            EpisodeData.Name := cleanString (EpisodeName e);
            EpisodeData.Episode := EpisodeNumber e;
            EpisodeData.Season := Season e;
            EpisodeData.Quality := Quality (episodeMeta e);
            EpisodeData.Codec := Codec (episodeMeta e);
            EpisodeData.Group := cleanString (Group (episodeMeta e)) |}.
  split; [|split; [|split; [|split; [|split]]]]; try reflexivity.
  - cbn [EpisodeData.TVShow EpisodeData.Name EpisodeData.Group].
    intros c [Hin | [Hin | Hin]]; eapply cleanString_clean; exact Hin.
  - cbv zeta. destruct (template _); reflexivity.
Qed.

End RenderedNames.

(** ** Splitting names *)

Section Splitting.
Variable sep : ascii.

Lemma isPrefix_single (c : ascii) (rest : list ascii) :
  isPrefix [sep] (c :: rest) = Ascii.eqb sep c.
Proof. cbn. apply andb_true_r. Qed.

(** Splitting at a separator that is in front of [b]: the pieces of
    [a], then the pieces of [b]. *)
Lemma splitLoop_app (a b : list ascii) :
  forall cur,
    Strings.splitLoop [sep] 0 cur (a ++ sep :: b) =
    Strings.splitLoop [sep] 0 cur a ++ Strings.splitLoop [sep] 0 [] b.
Proof.
  induction a as [|c a IH]; intros cur.
  - cbn [app Strings.splitLoop]. rewrite isPrefix_single, Ascii.eqb_refl.
    reflexivity.
  - cbn [app Strings.splitLoop]. rewrite !isPrefix_single.
    destruct (Ascii.eqb sep c); cbn [List.length Nat.sub]; rewrite IH; reflexivity.
Qed.

(** Without the separator there is one piece. *)
Lemma splitLoop_whole (s : list ascii) :
  forall cur, ~ In sep s -> Strings.splitLoop [sep] 0 cur s = [rev cur ++ s].
Proof.
  induction s as [|c s IH]; intros cur Hnot.
  - cbn. rewrite app_nil_r. reflexivity.
  - cbn [Strings.splitLoop]. rewrite isPrefix_single.
    destruct (Ascii.eqb_spec sep c) as [->|Hne].
    + exfalso. apply Hnot. left. reflexivity.
    + rewrite IH; [|intros Hin; apply Hnot; right; exact Hin].
      cbn [rev]. rewrite <- app_assoc. reflexivity.
Qed.

End Splitting.

(** The extension found by [filepath.Ext] starts at a dot of the path
    and runs to its end. *)
Lemma extLoop_found (rpath : list ascii) :
  forall suffix out,
    Filepath.extLoop rpath suffix = out -> out <> [] ->
    exists k rest, rpath = k ++ "." :: rest /\ out = "." :: rev k ++ suffix.
Proof.
  induction rpath as [|c before IH]; intros suffix out Heq Hne; cbn in Heq.
  - congruence.
  - destruct (Filepath.IsPathSeparator c); [congruence|].
    destruct (Ascii.eqb_spec c ".") as [->|Hc].
    + exists [], before. split; [reflexivity | symmetry; exact Heq].
    + destruct (IH _ _ Heq Hne) as (k & rest & -> & ->).
      exists (c :: k), rest. split; [reflexivity|].
      cbn [rev]. rewrite <- app_assoc. reflexivity.
Qed.

Lemma Ext_srt_suffix (stem : string) :
  Filepath.Ext (String.append stem ".srt") = ".srt"%string.
Proof.
  unfold Filepath.Ext. rewrite list_ascii_of_string_append, rev_app_distr.
  reflexivity.
Qed.

Lemma Ext_srt_inv (name : string) :
  Filepath.Ext name = ".srt"%string ->
  exists stem, name = String.append stem ".srt".
Proof.
  unfold Filepath.Ext. intros Hext.
  apply (f_equal list_ascii_of_string) in Hext.
  rewrite list_ascii_of_string_of_list_ascii in Hext. cbn in Hext.
  destruct (extLoop_found _ _ _ Hext) as (k & rest & Hrev & Hout);
    [discriminate|].
  rewrite app_nil_r in Hout. inversion Hout as [Hk].
  apply (f_equal (@rev ascii)) in Hk. rewrite rev_involutive in Hk. cbn in Hk.
  subst k. apply (f_equal (@rev ascii)) in Hrev.
  rewrite rev_involutive, rev_app_distr in Hrev. cbn in Hrev.
  exists (string_of_list_ascii (rev rest)). apply list_ascii_of_string_inj.
  rewrite list_ascii_of_string_append, list_ascii_of_string_of_list_ascii.
  rewrite Hrev, <- app_assoc. reflexivity.
Qed.

Section SubtitleNames.
Context `{LanguageTags}.

(** X19: [NewLocalSubtitle] accepts exactly the names that end in
    [.srt], in lower case: for those it returns a subtitle of the file,
    for all others the error "parsing non subtitle file as subtitle". *)
Theorem NewLocalSubtitle_accepts_srt (file : FileInfo) :
  ((exists sub, media.NewLocalSubtitle file = inl sub /\ media.file sub = file) <->
   (exists stem, Name file = String.append stem ".srt")) /\
  ((forall stem, Name file <> String.append stem ".srt") ->
   media.NewLocalSubtitle file =
   inr (errors_New "parsing non subtitle file as subtitle")).
Proof.
  split; [split|].
  - intros (sub & Hnew & _).
    destruct (String.eqb_spec (Filepath.Ext (Name file)) ".srt") as [Hext|Hext].
    + apply Ext_srt_inv. exact Hext.
    + unfold media.NewLocalSubtitle in Hnew.
      destruct (String.eqb_spec (Filepath.Ext (Name file)) ".srt");
        [contradiction | discriminate].
  - intros (stem & Hname). eexists. split.
    + apply NewLocalSubtitle_srt. rewrite Hname. apply Ext_srt_suffix.
    + reflexivity.
  - intros Hno. unfold media.NewLocalSubtitle.
    destruct (String.eqb_spec (Filepath.Ext (Name file)) ".srt") as [Hext|Hext];
      [|reflexivity].
    destruct (Ext_srt_inv _ Hext) as (stem & Hname). destruct (Hno stem Hname).
Qed.

(** X20: for a name of the form stem.token.srt, where the token has no
    dot, the language of the subtitle is [language.Make] of the token,
    whatever the stem is (it may have dots and slashes of its own). *)
Theorem NewLocalSubtitle_token (file : FileInfo) (stem token : string) :
  ~ In "." (list_ascii_of_string token) ->
  Name file =
    String.append stem (String.append "." (String.append token ".srt")) ->
  media.NewLocalSubtitle file =
  inl {| media.file := file; media.lang := language_Make token |}.
Proof.
  intros Hdot Hname.
  rewrite NewLocalSubtitle_srt.
  2:{ rewrite Hname.
      assert (Hassoc : String.append stem (String.append "." (String.append token ".srt"))
                       = String.append
                           (String.append stem (String.append "." token)) ".srt").
      { apply list_ascii_of_string_inj.
        rewrite !list_ascii_of_string_append. cbn [list_ascii_of_string].
        rewrite <- !app_assoc. reflexivity. }
      rewrite Hassoc. apply Ext_srt_suffix. }
  do 2 f_equal. unfold media.secondToLast, Strings.Split.
  rewrite Hname, !list_ascii_of_string_append.
  change (list_ascii_of_string ".") with ["."].
  change (["."] ++ list_ascii_of_string token ++ list_ascii_of_string ".srt")
    with ("." :: list_ascii_of_string token ++ "." :: list_ascii_of_string "srt").
  rewrite !splitLoop_app.
  rewrite (splitLoop_whole "." (list_ascii_of_string token)) by exact Hdot.
  change (Strings.splitLoop ["."] 0 [] (list_ascii_of_string "srt"))
    with [list_ascii_of_string "srt"].
  rewrite !map_app, !length_app. cbn [map List.length rev app].
  rewrite string_of_list_ascii_of_string.
  replace (_ + (1 + 1) - 2) with
    (List.length (map string_of_list_ascii
                      (Strings.splitLoop ["."] 0 [] (list_ascii_of_string stem))))
    by lia.
  rewrite app_nth2 by lia. rewrite Nat.sub_diag. reflexivity.
Qed.

End SubtitleNames.

(** X21: when none of group, codec, quality and source has a comma,
    [Metadata.String] can be taken apart again: splitting it at the
    commas gives back the four fields, in that order. *)
Theorem Metadata_String_fields (m : Metadata) :
  (forall field, In field [Group m; Codec m; Quality m; Source m] ->
                 ~ In "," (list_ascii_of_string field)) ->
  Strings.Split (Metadata_String m) "," =
  [Group m; Codec m; Quality m; Source m].
Proof.
  intros Hno. unfold Metadata_String, Strings.Split.
  cbn [Strings.Join]. rewrite !list_ascii_of_string_append.
  change (list_ascii_of_string ",") with [","].
  cbn [app]. rewrite !splitLoop_app.
  rewrite !splitLoop_whole by (apply Hno; cbn; tauto).
  cbn [rev app map]. rewrite !string_of_list_ascii_of_string. reflexivity.
Qed.

(** ** [FindMedia] *)

Section Finding.
Context `{Scanner}.
Import application.

(** The loop over the file types finds at most one of them. *)
Lemma rangeFiletypes_outcome (exts : list string) (filepath : string)
      (f : FileInfo) (medialist : list LocalMedia) :
  rangeFiletypes exts filepath f medialist =
  if existsb (fun ext => String.eqb ext (path_Ext filepath)) exts then
    match media_New f with
    | inr _ =>
        (Some (errorString (String.append "Cound not parse file: " filepath)),
         medialist)
    | inl m => (None, medialist ++ [m])
    end
  else (None, medialist).
Proof.
  induction exts as [|ext rest IH]; cbn [rangeFiletypes existsb]; [reflexivity|].
  destruct (String.eqb ext (path_Ext filepath)); cbn [orb]; [reflexivity | exact IH].
Qed.

(** One visit that parses extends the media list by its medium, if it
    has one. *)
Lemma walkFn_parses (v : Visit) (medialist : list LocalMedia) :
  parses v ->
  walkFn (visitPath v) (visitInfo v) (visitErr v) medialist =
  Returns (None, medialist ++ mediaOf [v]).
Proof.
  intros (info & Hinfo & Hnew). unfold walkFn. cbn [mediaOf].
  unfold isMediaFile in *. rewrite Hinfo in *.
  destruct (IsDir info); cbn [negb andb] in *.
  - rewrite app_nil_r. reflexivity.
  - rewrite rangeFiletypes_outcome.
    destruct (existsb _ filetypes).
    + destruct (Hnew eq_refl) as (m & ->). reflexivity.
    + rewrite app_nil_r. reflexivity.
Qed.

Lemma mediaOf_cons (v : Visit) (rest : list Visit) :
  mediaOf (v :: rest) = mediaOf [v] ++ mediaOf rest.
Proof.
  cbn [mediaOf]. destruct (visitInfo v) as [info|]; [|reflexivity].
  destruct (isMediaFile v); [|reflexivity].
  destruct (media_New info); reflexivity.
Qed.

Lemma walk_parses (visits rest : list Visit) :
  Forall parses visits ->
  forall medialist,
    walk (visits ++ rest) medialist = walk rest (medialist ++ mediaOf visits).
Proof.
  induction 1 as [|v visits Hv _ IH]; intros medialist.
  - cbn. rewrite app_nil_r. reflexivity.
  - cbn [app walk]. rewrite (walkFn_parses v medialist Hv).
    rewrite IH, (mediaOf_cons v visits), app_assoc. reflexivity.
Qed.

(** X22: when [filepath.Walk] could examine every file and [media.New]
    accepts every regular file with one of the ten video extensions,
    [FindMedia] returns the media of exactly those files, in the order
    of the walk; directories and files with any other extension, such
    as subtitles, are passed over. *)
Theorem FindMedia_found (root : string) (fs : FS) :
  (forall err, os_Stat root fs = inr err -> os_IsNotExist err = false) ->
  Forall parses (filepath_Walk root fs) ->
  FindMedia root fs = Returns (inl (mediaOf (filepath_Walk root fs))).
Proof.
  intros Hroot Hall.
  assert (Hwalk : walkRoot root fs = Returns (inl (mediaOf (filepath_Walk root fs)))).
  { unfold walkRoot. rewrite <- (app_nil_r (filepath_Walk root fs)) at 1.
    rewrite (walk_parses _ [] Hall). reflexivity. }
  unfold FindMedia. destruct (os_Stat root fs) as [info|err]; [exact Hwalk|].
  rewrite (Hroot err eq_refl). exact Hwalk.
Qed.

(** X23: the first media file that [media.New] rejects ends the search:
    [FindMedia] returns the error "Cound not parse file: " followed by
    the path of that file, and none of the media found before it. *)
Theorem FindMedia_unparseable
        (root : string) (fs : FS) (before after : list Visit) (v : Visit)
        (info : FileInfo) (err : error) :
  (forall e, os_Stat root fs = inr e -> os_IsNotExist e = false) ->
  filepath_Walk root fs = before ++ v :: after ->
  Forall parses before ->
  visitInfo v = Some info ->
  isMediaFile v = true ->
  media_New info = inr err ->
  FindMedia root fs =
  Returns (inr (errorString (String.append "Cound not parse file: "
                                           (visitPath v)))).
Proof.
  intros Hroot Hsplit Hbefore Hinfo Hmedia Hnew.
  assert (Hwalk : walkRoot root fs =
                  Returns (inr (errorString (String.append "Cound not parse file: "
                                                           (visitPath v))))).
  { unfold walkRoot. rewrite Hsplit, (walk_parses _ _ Hbefore).
    cbn [walk]. unfold walkFn. rewrite Hinfo.
    unfold isMediaFile in Hmedia. rewrite Hinfo in Hmedia.
    apply andb_true_iff in Hmedia as [Hdir Hext].
    apply negb_true_iff in Hdir. rewrite Hdir, rangeFiletypes_outcome, Hext, Hnew.
    reflexivity. }
  unfold FindMedia. destruct (os_Stat root fs) as [i|e]; [exact Hwalk|].
  rewrite (Hroot e eq_refl). exact Hwalk.
Qed.

(** X24: the function handed to [filepath.Walk] calls [IsDir] on the
    file information before it looks at anything else, so a file that
    [Walk] could not examine, and reports with nil information and an
    error, makes [FindMedia] panic instead of returning that error. *)
Theorem FindMedia_unexamined_file
        (root : string) (fs : FS) (before after : list Visit) (v : Visit) :
  (forall e, os_Stat root fs = inr e -> os_IsNotExist e = false) ->
  filepath_Walk root fs = before ++ v :: after ->
  Forall parses before ->
  visitInfo v = None ->
  FindMedia root fs = Panics.
Proof.
  intros Hroot Hsplit Hbefore Hinfo.
  assert (Hwalk : walkRoot root fs = Panics).
  { unfold walkRoot. rewrite Hsplit, (walk_parses _ _ Hbefore).
    cbn [walk]. unfold walkFn. rewrite Hinfo. reflexivity. }
  unfold FindMedia. destruct (os_Stat root fs) as [i|e]; [exact Hwalk|].
  rewrite (Hroot e eq_refl). exact Hwalk.
Qed.

End Finding.

(** ** Package api *)

Section Serving.
Context `{Web}.
Import api.

Lemma ServeHTTP_error_run {P : Type} (marshal : P -> string + error)
      (fn : apiHandler P) (r : Request) (written : list WriterCall) (err : goerror) :
  fn r = (written, replyError err) ->
  ServeHTTP marshal fn r =
  written ++
  match json_errorObject (message err) with
  | inl js => [HeaderSet "Content-Type" "application/json";
               WriteHeader 400; Write js]
  | inr e => [http_Error (errorText e) 500]
  end.
Proof.
  intros Hfn. unfold ServeHTTP. rewrite Hfn. unfold MarshalJSON.
  cbn [message api.Error Status].
  destruct (json_errorObject (message err)); reflexivity.
Qed.

(** X25: an error returned by a handler is always answered with status
    400 and the JSON object of its message, or with 500 when that
    object cannot be made.  This holds for an [APIError] too: the
    status it was made with is not the one that is sent. *)
Theorem ServeHTTP_error_status {P : Type} (marshal : P -> string + error)
        (fn : apiHandler P) (r : Request) (written : list WriterCall)
        (err : goerror) :
  fn r = (written, replyError err) ->
  ServeHTTP marshal fn r =
  written ++
  match json_errorObject (message err) with
  | inl js => [HeaderSet "Content-Type" "application/json";
               WriteHeader 400; Write js]
  | inr e => [http_Error (errorText e) 500]
  end.
Proof. apply ServeHTTP_error_run. Qed.

(** X26: whatever the handler returns, the only statuses [ServeHTTP]
    itself sends are 400, 404 and 500; a value that is no error is
    written without a status of its own. *)
Theorem ServeHTTP_statuses {P : Type} (marshal : P -> string + error)
        (fn : apiHandler P) (r : Request) :
  exists own,
    ServeHTTP marshal fn r = fst (fn r) ++ own /\
    (forall c code, In c own -> statusOf c = Some code ->
                    code = 400%Z \/ code = 404%Z \/ code = 500%Z) /\
    (forall p, snd (fn r) = replyValue p ->
               forall c, In c own -> statusOf c = None \/ statusOf c = Some 500%Z).
Proof.
  unfold ServeHTTP. destruct (fn r) as [written [|err|p]]; cbn [fst snd].
  - eexists. split; [reflexivity|]. split.
    + intros c code [<-|[]] Hs. inversion Hs. tauto.
    + intros p Hp. discriminate.
  - unfold MarshalJSON. destruct (json_errorObject _) as [js|e];
      (eexists; split; [reflexivity|]; split; [|intros p Hp; discriminate]).
    + intros c code Hin Hs. cbn in Hin.
      destruct Hin as [<-|[<-|[<-|[]]]]; inversion Hs. tauto.
    + intros c code [<-|[]] Hs. inversion Hs. tauto.
  - destruct (marshal p) as [js|e]; (eexists; split; [reflexivity|]; split).
    + intros c code Hin Hs. cbn in Hin. destruct Hin as [<-|[<-|[]]]; inversion Hs.
    + intros _ _ c Hin. cbn in Hin. destruct Hin as [<-|[<-|[]]]; left; reflexivity.
    + intros c code [<-|[]] Hs. inversion Hs. tauto.
    + intros _ _ c [<-|[]]. right. reflexivity.
Qed.

(** X27: a request to [config] with a method other than GET is answered
    with status 400 and the message "Method not allowed": the handler
    makes an [APIError] with status 405, and [ServeHTTP] replaces it. *)
Theorem config_other_method (marshal : jsonConfig -> string + error)
        (a : API) (r : Request) :
  Method r <> "GET"%string ->
  snd (config a r) =
    replyError (api.Error (plain (errors_New "Method not allowed")) 405) /\
  ServeHTTP marshal (config a) r =
  match json_errorObject "Method not allowed" with
  | inl js => [HeaderSet "Content-Type" "application/json";
               WriteHeader 400; Write js]
  | inr e => [http_Error (errorText e) 500]
  end.
Proof.
  intros Hm.
  assert (Hc : config a r =
               ([], replyError (api.Error (plain (errors_New "Method not allowed")) 405))).
  { unfold config. destruct (String.eqb_spec (Method r) "GET");
      [contradiction | reflexivity]. }
  split; [rewrite Hc; reflexivity|].
  rewrite (ServeHTTP_error_run marshal _ _ _ _ Hc). reflexivity.
Qed.

Lemma rangeLanguages_tags (items : list Item) :
  forall langs,
    rangeLanguages items langs =
    langs ++ map (fun t => {| Code := t; Lang := display_Name t |}) (tagsOf items).
Proof.
  induction items as [|[t|] rest IH]; intros langs; cbn.
  - rewrite app_nil_r. reflexivity.
  - rewrite IH, <- app_assoc. reflexivity.
  - apply IH.
Qed.

(** X28: a GET request to [config] returns the configured languages
    that are language tags, in the order of the list, each with its
    English name; elements that are no tags are left out, and nothing
    is written by the handler itself. *)
Theorem config_get (a : API) (r : Request) :
  Method r = "GET"%string ->
  config a r =
  ([], replyValue
         {| Langs := map (fun t => {| Code := t; Lang := display_Name t |})
                         (tagsOf (Languages a)) |}).
Proof.
  intros Hm. unfold config. rewrite Hm. cbn [String.eqb].
  change (String.eqb "GET" "GET") with true. cbn iota.
  rewrite rangeLanguages_tags. reflexivity.
Qed.

(** X29: [queryLang] reports "unknown language", with an empty set,
    exactly when the request names a language that [language.Make] turns
    into the undetermined tag; when it names another language the set is
    that one tag, and when it names none the set is the configured
    one. *)
Theorem queryLang_outcome (a : API) (r : Request) :
  (snd (queryLang a r) <> None <->
   QueryGet r "lang" <> EmptyString /\
   language_Make (QueryGet r "lang") = language_Und) /\
  (snd (queryLang a r) <> None ->
   queryLang a r = ([], Some (errors_New "unknown language"))) /\
  (snd (queryLang a r) = None ->
   fst (queryLang a r) =
   if String.eqb (QueryGet r "lang") EmptyString then Languages a
   else [itemTag (language_Make (QueryGet r "lang"))]).
Proof.
  unfold queryLang.
  destruct (String.eqb_spec (QueryGet r "lang") EmptyString) as [He|He];
    [|destruct (decide (language_Make (QueryGet r "lang") = language_Und))
        as [Hu|Hu]];
    cbn [fst snd]; intuition congruence.
Qed.

End Serving.

(** ** The further properties on the library *)

Section OnTheSamples.
Import Library Samples.
#[local] Existing Instances Mem.os Mem.types Mem.provider Mem.tags scanner web.
Local Open Scope string_scope.
Local Open Scope list_scope.

Lemma truncateSpaces_no_run_witness :
  list_ascii_of_string (truncateSpaces "a   b") =
    ["a"%char] ++ " "%char :: "b"%char :: [] /\
  Regexp.perlSpace " " && Regexp.perlSpace "b" = false.
Proof.
  split; [reflexivity|].
  apply (truncateSpaces_no_run "a   b" ["a"%char] [] " " "b"). reflexivity.
Defined.

Lemma Rename_absent_destination_witness :
  os_Stat "/movies/Alien.mkv" disk = inr Mem.ENOENT /\
  Rename copyRenamer alien "/movies/Alien.mkv" false (start disk) =
  copyRenamer alien "/movies/Alien.mkv"
              (called (CallStat "/movies/Alien.mkv") (start disk)).
Proof.
  split; [reflexivity|].
  apply (Rename_absent_destination copyRenamer alien "/movies/Alien.mkv" false
           (start disk) Mem.ENOENT).
  reflexivity.
Defined.

Lemma Rename_forced_witness :
  let out := Rename copyRenamer heat "/movies/Heat.mkv" true (start disk) in
  fst out = None /\
  Mem.nodes (fs (snd out)) !! "/movies/Heat.mkv" = Some (Mem.File "heat bytes" 6) /\
  map message (logged (snd out)) = ["Removed existing media"; "Media copied"].
Proof.
  intros out. subst out.
  rewrite (Rename_forced copyRenamer heat "/movies/Heat.mkv" (start disk)
             {| Name := "Heat.mkv"; ModTime := 4; IsDir := false |} eq_refl).
  repeat split; reflexivity.
Defined.

Lemma renamers_mkdir_failure_witness :
  fst (os_MkdirAll (Filepath.Dir "/movies/Heat.mkv") ModeDir blocked) =
    Some Mem.ENOTDIR /\
  copyRenamer heat "/movies/Heat.mkv" (start blocked) =
    (Some Mem.ENOTDIR, afterMkdirAll "/movies/Heat.mkv" (start blocked)).
Proof.
  split; [reflexivity|].
  apply (renamers_mkdir_failure heat "/movies/Heat.mkv" (start blocked)
           Mem.ENOTDIR).
  reflexivity.
Defined.

Lemma renamers_log_on_success_witness :
  Renamers !! "move" = Some moveRenamer /\
  match moveRenamer heat "/movies/Heat (1995).mkv" (start disk) with
  | (None, w') => logsSuccess "/movies/Heat (1995).mkv" (start disk) w'
  | (Some _, w') => logged w' = logged (start disk)
  end.
Proof.
  split; [reflexivity|].
  apply (renamers_log_on_success "move" moveRenamer heat
           "/movies/Heat (1995).mkv" (start disk)).
  reflexivity.
Defined.

Lemma RenameMedia_unknown_action_witness :
  ~ In (viper_GetString (appWith "delete" lenient [movieDb]) "action")
       ["copy"; "move"; "symlink"; "hardlink"] /\
  RenameMedia (appWith "delete" lenient [movieDb]) [heat; alien] (start disk) =
  (Some (errorString "delete: unknown action"), start disk).
Proof.
  assert (Hnot : ~ In (viper_GetString (appWith "delete" lenient [movieDb]) "action")
                      ["copy"; "move"; "symlink"; "hardlink"]).
  { simpl. intros [Hc|[Hc|[Hc|[Hc|[]]]]]; discriminate Hc. }
  split; [exact Hnot|].
  apply (RenameMedia_unknown_action (appWith "delete" lenient [movieDb])
           [heat; alien] (start disk) Hnot).
Defined.


Lemma RenameMedia_lenient_item_witness :
  let w1 := {| fs := disk; logged := [];
               calls := [CallScrape tvDb (upcast pilot)] |} in
  exists entry,
    RenameMedia (app lenient [tvDb; movieDb]) [pilot; alien] (start disk) =
      RenameMedia (app lenient [tvDb; movieDb]) [alien]
                  {| fs := fs w1; logged := logged w1 ++ [entry];
                     calls := calls w1 |} /\
    (level entry, message entry) = (ErrorLevel, "Rename failed") /\
    (forall e, Some (errors_New "missing template for tvshows") = Some e ->
               e <> mediaExistsError ->
               In ("error", VError e) (fields entry)).
Proof.
  intros w1.
  apply (RenameMedia_lenient_item (app lenient [tvDb; movieDb]) copyRenamer pilot
           pilot [alien] (upcast pilot) (start disk) w1 w1
           (Some (errors_New "missing template for tvshows")));
    reflexivity.
Defined.

Lemma RenameMedia_lenient_returns_nil_witness :
  fst (RenameMedia (app lenient [tvDb; movieDb]) [pilot; heat; alien]
                   (start disk)) = None.
Proof.
  apply (RenameMedia_lenient_returns_nil (app lenient [tvDb; movieDb])
           copyRenamer [pilot; heat; alien]); [reflexivity | reflexivity |].
  repeat constructor.
  - exists (upcast pilot). split; [intros w|]; reflexivity.
  - exists (Mem.KMovie {| movieMeta := noRelease; MovieName := "Heat";
                          Year := 1995 |}).
    split; [intros w|]; reflexivity.
  - exists (Mem.KMovie {| movieMeta := noRelease; MovieName := "Alien";
                          Year := 1979 |}).
    split; [intros w|]; reflexivity.
Defined.

Lemma NewLocalSubtitle_token_witness :
  let file := {| Name := "Show.S01E02.en.srt"; ModTime := 0; IsDir := false |} in
  ~ In "."%char (list_ascii_of_string "en") /\
  media.NewLocalSubtitle file =
  inl {| media.file := file; media.lang := language_Make "en" |}.
Proof.
  intros file.
  assert (Hdot : ~ In "."%char (list_ascii_of_string "en")).
  { simpl. intros [Hc|[Hc|[]]]; discriminate Hc. }
  split; [exact Hdot|].
  apply (NewLocalSubtitle_token file "Show.S01E02" "en" Hdot). reflexivity.
Defined.

Lemma Metadata_String_fields_witness :
  Metadata_String release = "GRP,x264,1080p,BluRay" /\
  Strings.Split (Metadata_String release) "," =
  ["GRP"; "x264"; "1080p"; "BluRay"].
Proof.
  split; [reflexivity|].
  apply (Metadata_String_fields release).
  intros field Hin Hcomma. simpl in Hin.
  destruct Hin as [<-|[<-|[<-|[<-|[]]]]]; simpl in Hcomma;
    repeat (destruct Hcomma as [Hc|Hcomma]; [discriminate Hc|]);
    exact Hcomma.
Defined.

(** The media found under the directory of the library: the two movies,
    not the subtitle. *)
Lemma FindMedia_found_witness :
  application.FindMedia "/in" disk =
    Returns (inl (application.mediaOf (filepath_Walk "/in" disk))) /\
  map (fun m => Name (Info m)) (application.mediaOf (filepath_Walk "/in" disk)) =
    ["Alien.1979.1080p.BluRay.x264-GRP.mkv";
     "Heat.1995.1080p.BluRay.x264-GRP.mkv"].
Proof.
  split; [|reflexivity].
  apply (FindMedia_found "/in" disk).
  - intros err Hstat. discriminate Hstat.
  - repeat constructor;
      (eexists; split; [reflexivity | intros _; eexists; reflexivity]).
Defined.

Lemma FindMedia_unparseable_witness :
  application.FindMedia "/in" cluttered =
  Returns (inr (errorString "Cound not parse file: /in/.mkv")).
Proof.
  apply (FindMedia_unparseable "/in" cluttered
           [{| visitPath := "/in";
               visitInfo := Some {| Name := "in"; ModTime := 0; IsDir := true |};
               visitErr := None |}]
           (map (fun kv => {| visitPath := fst kv;
                              visitInfo := Some (Mem.infoOf (fst kv) (snd kv));
                              visitErr := None |})
                [("/in/Alien.1979.1080p.BluRay.x264-GRP.mkv", Mem.File "alien bytes" 2);
                 ("/in/Heat.1995.1080p.BluRay.x264-GRP.mkv", Mem.File "heat bytes" 1);
                 ("/in/Heat.1995.en.srt", Mem.File "subtitle bytes" 3)])
           {| visitPath := "/in/.mkv";
              visitInfo := Some {| Name := ".mkv"; ModTime := 5; IsDir := false |};
              visitErr := None |}
           {| Name := ".mkv"; ModTime := 5; IsDir := false |}
           (foreignError "media" "no title")).
  - intros e Hstat. discriminate Hstat.
  - reflexivity.
  - repeat constructor.
    eexists; split; [reflexivity | intros Hm; discriminate Hm].
  - reflexivity.
  - reflexivity.
  - reflexivity.
Defined.

Lemma FindMedia_unexamined_file_witness :
  @application.FindMedia _ _ racing "/in" disk = Panics.
Proof.
  apply (@FindMedia_unexamined_file _ _ racing "/in" disk
           [{| visitPath := "/in";
               visitInfo := Some {| Name := "in"; ModTime := 0; IsDir := true |};
               visitErr := None |}]
           (map (fun kv => {| visitPath := fst kv;
                              visitInfo := Some (Mem.infoOf (fst kv) (snd kv));
                              visitErr := None |})
                [("/in/Alien.1979.1080p.BluRay.x264-GRP.mkv", Mem.File "alien bytes" 2);
                 ("/in/Heat.1995.1080p.BluRay.x264-GRP.mkv", Mem.File "heat bytes" 1);
                 ("/in/Heat.1995.en.srt", Mem.File "subtitle bytes" 3)])
           {| visitPath := "/in/Gone.mkv"; visitInfo := None;
              visitErr := Some Mem.ENOENT |}).
  - intros e Hstat. discriminate Hstat.
  - reflexivity.
  - repeat constructor.
    eexists; split; [reflexivity | intros Hm; discriminate Hm].
  - reflexivity.
Defined.

Lemma ServeHTTP_error_status_witness :
  api.ServeHTTP noJSON (api.config languages) post =
  [api.HeaderSet "Content-Type" "application/json"; api.WriteHeader 400;
   api.Write (String.append "{"
               (String.append quote
               (String.append "error"
               (String.append quote
               (String.append ": "
               (String.append quote
               (String.append "Method not allowed"
               (String.append quote "}"))))))))].
Proof.
  exact (ServeHTTP_error_status noJSON (api.config languages) post []
           (api.Error (api.plain (errors_New "Method not allowed")) 405)
           eq_refl).
Defined.

Lemma config_other_method_witness :
  api.Method post <> "GET" /\
  snd (api.config languages post) =
    api.replyError (api.Error (api.plain (errors_New "Method not allowed")) 405) /\
  api.ServeHTTP noJSON (api.config languages) post =
  match json_errorObject "Method not allowed" with
  | inl js => [api.HeaderSet "Content-Type" "application/json";
               api.WriteHeader 400; api.Write js]
  | inr e => [api.http_Error (errorText e) 500]
  end.
Proof.
  assert (Hm : api.Method post <> "GET") by discriminate.
  split; [exact Hm|].
  apply (config_other_method noJSON languages post Hm).
Defined.

Lemma config_get_witness :
  api.config languages get =
  ([], api.replyValue
         {| api.Langs := [{| api.Code := Some "en"; api.Lang := "English" |};
                          {| api.Code := Some "da"; api.Lang := "Danish" |}] |}).
Proof. exact (config_get languages get eq_refl). Defined.

End OnTheSamples.
